(** * var_viper: the size-budgeted rendering pipeline

    A shallow embedding of [var_viper.py]: the size estimator
    [estimate_df_limit], the array formatter [format_array], the recursive
    tree renderer [render_recursive_html], the entry point [show], and the
    client-side [applyHeatmap] of the generated page.

    Conventions of the embedding.
    - Python [str] values are [string]s, one [ascii] per character, and
      [len] is the character count as a [Z].
    - Python [int]s are [Z].
    - A call that may raise returns a [result]: [Ok v] or [Raise msg], where
      [msg] is the text the exception formats to ([f"{e}"]).
    - pandas, numpy and the float arithmetic of the interpreter are not part
      of the repository: [to_html] is a parameter of the development and the
      float operations used by the estimator are the fields of [PyFloat].
    - Values are finite trees: a container that contains itself, and the
      recursion limit and memory of the interpreter, are outside the
      embedding.
    - The script of the page works on IEEE 754 binary64 Numbers, here the
      [spec_float] of the Standard Library; the table is the text of its
      cells and [parseFloat] is a parameter ([JS.parseFloat] models it for
      the examples). *)

From Stdlib Require Import ZArith List String Ascii Bool Lia.
From Stdlib Require Import Decimal DecimalString DecimalPos DecimalZ.
From Stdlib Require Import QArith Qround SpecFloat.
Import ListNotations.

#[local] Open Scope string_scope.
#[local] Open Scope Z_scope.

Set Implicit Arguments.
Set Warnings "-register-all".

(* ================================================================= *)
(** ** Exceptions *)

Inductive result (A : Type) : Type :=
| Ok (a : A)
| Raise (msg : string).

Arguments Ok {A} a.
Arguments Raise {A} msg.

Definition bind {A B : Type} (c : result A) (k : A -> result B) : result B :=
  match c with
  | Ok a => k a
  | Raise e => Raise e
  end.

Declare Scope py_scope.
Delimit Scope py_scope with py.
Notation "x <- c ;; k" := (bind c (fun x => k))
  (at level 61, c at next level, right associativity) : py_scope.
#[local] Open Scope py_scope.

(* ================================================================= *)
(** ** Strings *)

(** The double quote character, spelled by its code. *)
Definition dq : string := String (ascii_of_nat 34) EmptyString.

(** [len(s)] *)
Definition len (s : string) : Z := Z.of_nat (String.length s).

(** [str(n)] for an [int]. *)
Definition str_int (n : Z) : string := NilZero.string_of_int (Z.to_int n).

(** [html.escape(s)] with its default [quote=True]. *)
Definition escape_char (c : ascii) : string :=
  if Ascii.eqb c "&" then "&amp;"
  else if Ascii.eqb c "<" then "&lt;"
  else if Ascii.eqb c ">" then "&gt;"
  else if Ascii.eqb c (ascii_of_nat 34) then "&quot;"
  else if Ascii.eqb c "'" then "&#x27;"
  else String c EmptyString.

Fixpoint html_escape (s : string) : string :=
  match s with
  | EmptyString => EmptyString
  | String c rest => escape_char c ++ html_escape rest
  end.

(** The characters below 256 that [str.isspace] accepts. *)
Definition py_isspace (c : ascii) : bool :=
  let n := nat_of_ascii c in
  ((9 <=? n) && (n <=? 13) || (28 <=? n) && (n <=? 32)
   || (n =? 133) || (n =? 160))%nat.

Fixpoint lstrip (s : string) : string :=
  match s with
  | EmptyString => EmptyString
  | String c rest => if py_isspace c then lstrip rest else s
  end.

(** [val.strip().startswith('<table')]: only the leading whitespace that
    [strip] removes can change the answer of [startswith]: a string of
    whitespace only strips to the empty string on both readings. *)
Definition is_table_markup (val : string) : bool :=
  String.prefix "<table" (lstrip val).

(** [c * n] for a one-character string [c]. *)
Fixpoint str_repeat (c : ascii) (n : nat) : string :=
  match n with
  | O => EmptyString
  | S n' => String c (str_repeat c n')
  end.

(* ================================================================= *)
(** ** Configuration *)

Definition TARGET_BYTES_PER_VAR : Z := 15 * 1024 * 1024.
Definition ABSOLUTE_ROW_LIMIT : Z := 200000.

(* ================================================================= *)
(** ** Data model *)

(** A table or array cell.  Only pandas' renderer looks inside a cell, so a
    cell is carried by its printed text. *)
Definition cell : Type := string.

(** [pd.DataFrame]: column labels and rows, each row with its index label. *)
Record frame : Type := Frame {
  columns : list string;
  rows : list (string * list cell)
}.

(** [df.shape] *)
Definition frame_shape0 (df : frame) : Z := Z.of_nat (List.length (rows df)).
Definition frame_shape1 (df : frame) : Z := Z.of_nat (List.length (columns df)).

(** [df.head(n)] for [n >= 0]. *)
Definition head (n : Z) (df : frame) : frame :=
  Frame (columns df) (firstn (Z.to_nat n) (rows df)).

(** [pd.Series] and [Series.to_frame()]. *)
Record series : Type := Series {
  series_name : string;
  series_items : list (string * cell)
}.

Definition to_frame (s : series) : frame :=
  Frame [series_name s] (map (fun ic => (fst ic, [snd ic])) (series_items s)).

(** [np.ndarray]: the shape and the cells in row-major order. *)
Record ndarray : Type := NDArray {
  shape : list nat;
  data : list cell
}.

Definition ndim (a : ndarray) : nat := List.length (shape a).

(** [arr.shape[0]] of an array of rank at least one. *)
Definition shape0 (a : ndarray) : nat := hd O (shape a).

(** Number of cells of one entry along the first axis. *)
Definition stride (a : ndarray) : nat := fold_right Nat.mul 1%nat (tl (shape a)).

(** [arr[i]] for [0 <= i < arr.shape[0]]. *)
Definition subarray (a : ndarray) (i : nat) : ndarray :=
  NDArray (tl (shape a)) (firstn (stride a) (skipn (i * stride a) (data a))).

(** [arr[:k]] for [k >= 0] on an array of rank at least one. *)
Definition take_rows (k : nat) (a : ndarray) : ndarray :=
  let m := Nat.min k (shape0 a) in
  NDArray (m :: tl (shape a)) (firstn (m * stride a) (data a)).

(** [str(arr.shape)]: a Python tuple of ints. *)
Definition str_shape (sh : list nat) : string :=
  match sh with
  | [] => "()"
  | [n] => "(" ++ str_int (Z.of_nat n) ++ ",)"
  | n :: rest =>
      "(" ++ str_int (Z.of_nat n)
          ++ fold_right (fun d acc => ", " ++ str_int (Z.of_nat d) ++ acc) ")" rest
  end.

(** Rows of the frame built from an array of rank one or two: row [i] holds
    the cells of [arr[i]] under the index label [i]. *)
Definition array_rows (a : ndarray) : list (string * list cell) :=
  map (fun i => (str_int (Z.of_nat i), data (subarray a i))) (seq 0 (shape0 a)).

(** [pd.DataFrame(arr, columns=['Value'])] for rank one and
    [pd.DataFrame(arr)] for rank two. *)
Definition frame_of_array (a : ndarray) : frame :=
  if (ndim a =? 1)%nat
  then Frame ["Value"] (array_rows a)
  else Frame (map (fun j => str_int (Z.of_nat j)) (seq 0 (stride a))) (array_rows a).

(** Any other Python object: what the dispatch of [show] and of the tree
    renderer can observe of it. *)
Record object : Type := Object {
  obj_type : string;          (* type(val).__name__ *)
  obj_callable : bool;        (* hasattr(val, '__call__') *)
  obj_module : bool;          (* isinstance(val, types.ModuleType) *)
  obj_str : result string     (* str(val) *)
}.

Inductive value : Type :=
| VDataFrame (df : frame)
| VSeries (s : series)
| VArray (a : ndarray)
| VDict (items : list (string * value))
| VList (items : list value)
| VStr (s : string)
| VOther (o : object).

(** A dict entry of [format_array]'s result for rank above two. *)
Inductive slice : Type :=
| SliceArray (a : ndarray)
| SliceNote (s : string).

Definition slice_value (s : slice) : value :=
  match s with
  | SliceArray a => VArray a
  | SliceNote s => VStr s
  end.

(** What [format_array] returns: markup, or a dict of slices. *)
Inductive formatted : Type :=
| FormattedHtml (html : string)
| FormattedDict (d : list (string * slice)).

(** Python dicts keep insertion order: [d[k] = v] overwrites in place or
    appends. *)
Fixpoint dict_set {V : Type} (d : list (string * V)) (k : string) (v : V)
  : list (string * V) :=
  match d with
  | [] => [(k, v)]
  | (k', v') :: rest =>
      if String.eqb k' k then (k, v) :: rest else (k', v') :: dict_set rest k v
  end.

Fixpoint dict_get {V : Type} (d : list (string * V)) (k : string) : option V :=
  match d with
  | [] => None
  | (k', v') :: rest => if String.eqb k' k then Some v' else dict_get rest k
  end.

(* ================================================================= *)
(** ** Float arithmetic of the interpreter *)

(** The float operations [estimate_df_limit] performs. *)
Class PyFloat : Type := {
  float : Type;
  int_truediv : Z -> Z -> float;          (* a / b on two ints, b <> 0 *)
  int_div_float : Z -> float -> float;    (* a / x for an int and a float *)
  float_le_int : float -> Z -> bool;      (* x <= n *)
  int_of_float : float -> Z               (* int(x) *)
}.

(* ================================================================= *)
(** ** The size estimator *)

Section Estimator.
Context {F : PyFloat}.

(** pandas' [DataFrame.to_html(classes=..., border=0)]. *)
Variable to_html : option string -> frame -> result string.

(** Lines 76-81 of [estimate_df_limit]: from the observed bytes per row
    to the clamped limit. *)
Definition limit_of_bytes_per_row (bytes_per_row : float) : Z :=
  let estimated_limit :=
    if float_le_int bytes_per_row 0
    then int_of_float (int_truediv TARGET_BYTES_PER_VAR 1)
    else int_of_float (int_div_float TARGET_BYTES_PER_VAR bytes_per_row) in
  Z.max 50 (Z.min estimated_limit ABSOLUTE_ROW_LIMIT).

Definition estimate_df_limit (df : frame) : result Z :=
  let total_rows := frame_shape0 df in
  if total_rows =? 0 then Ok 0
  else
    let sample_size := Z.min 5 total_rows in
    sample_html <- to_html None (head sample_size df) ;;
    let overhead := 100 in
    let bytes_per_row := int_truediv (len sample_html - overhead) sample_size in
    Ok (limit_of_bytes_per_row bytes_per_row).

(* =============================================================== *)
(** ** The array formatter *)

Definition table_classes : option string := Some "styled-table heatmap-table".

Definition array_marker (limit total : Z) : string :=
  "<div style='padding:5px; color:#75715e; font-style:italic'>(Showing first "
    ++ str_int limit ++ " rows of " ++ str_int total
    ++ " - Limited by display size)</div>".

Definition max_slices : nat := 50.

(** The loop of the rank > 2 branch, from index [i] on [n] more times. *)
Fixpoint slice_loop (a : ndarray) (i n : nat) (sliced_dict : list (string * slice))
  : list (string * slice) :=
  match n with
  | O => sliced_dict
  | S n' =>
      let label := "Slice " ++ str_int (Z.of_nat i) in
      let sub_val := subarray a i in
      slice_loop a (S i) n' (dict_set sliced_dict label (SliceArray sub_val))
  end.

Definition format_array (a : ndarray) : result formatted :=
  if (ndim a <=? 2)%nat then
    match shape a with
    | [] =>
        Raise "too many indices for array: array is 0-dimensional, but 1 were indexed"
    | _ =>
        let temp_df := frame_of_array (take_rows 10 a) in
        limit <- estimate_df_limit temp_df ;;
        let truncated := Z.of_nat (shape0 a) >? limit in
        let display_arr := if truncated then take_rows (Z.to_nat limit) a else a in
        let df := frame_of_array display_arr in
        html_out <- to_html table_classes df ;;
        Ok (FormattedHtml
              (if truncated
               then html_out ++ array_marker limit (Z.of_nat (shape0 a))
               else html_out))
    end
  else
    let sliced_dict := slice_loop a 0 (Nat.min (shape0 a) max_slices) [] in
    Ok (FormattedDict
          (if (max_slices <? shape0 a)%nat
           then dict_set sliced_dict "..."
                  (SliceNote ("And " ++ str_int (Z.of_nat (shape0 a) - Z.of_nat max_slices)
                                     ++ " more slices..."))
           else sliced_dict)).

End Estimator.

(* ================================================================= *)
(** ** The recursive tree renderer *)

Definition ul_open : string := "<ul class=" ++ dq ++ "tree" ++ dq ++ ">".

(** The truncation notice of the tree renderer. *)
Definition tree_notice (remaining : Z) : string :=
  "<li style=" ++ dq ++ "color: #75715e; font-style: italic; margin-top:5px;" ++ dq
    ++ ">... and " ++ str_int remaining
    ++ " more items (truncated for performance) ...</li>".

Definition span_key (key : string) : string :=
  "<span class=" ++ dq ++ "key" ++ dq ++ ">" ++ key ++ "</span>".

Definition table_wrapper (table_html : string) : string :=
  "<div class=" ++ dq ++ "table-wrapper" ++ dq ++ ">" ++ table_html ++ "</div>".

Section TreeLoop.
Variable A : Type.

(** The body of the loop for the entry at position [i] of the iterator:
    [item_html] up to and including the closing [</li>]. *)
Variable item_html : Z -> A -> result string.

(** The [for] loop of [render_recursive_html] over the entries not yet
    consumed, with the loop's local variables as accumulators. *)
Fixpoint tree_loop (total_len : Z) (entries : list A)
         (count current_html_len : Z) (html_str : string) : result string :=
  match entries with
  | [] => Ok html_str
  | entry :: rest =>
      if current_html_len >? TARGET_BYTES_PER_VAR then
        let remaining := total_len - count in
        Ok (html_str ++ tree_notice remaining)
      else
        item <- item_html count entry ;;
        tree_loop total_len rest (count + 1) (current_html_len + len item)
                  (html_str ++ item)
  end.

(** [render_recursive_html] around its loop body. *)
Definition render_tree (entries : list A) : result string :=
  html_str <- tree_loop (Z.of_nat (List.length entries)) entries 0 0 ul_open ;;
  Ok (html_str ++ "</ul>").
End TreeLoop.

Section Renderer.
Context {F : PyFloat}.
Variable to_html : option string -> frame -> result string.

(** [isinstance(val, (pd.DataFrame, pd.Series))] branch of the loop body. *)
Definition frame_entry (key : string) (df : frame) : result string :=
  limit <- estimate_df_limit to_html df ;;
  table_html <-
    (if frame_shape0 df >? limit then
       t <- to_html table_classes (head limit df) ;;
       Ok (t ++ "<div style='padding:5px; color:#75715e'>(Showing first "
             ++ str_int limit ++ " rows of " ++ str_int (frame_shape0 df) ++ ")</div>")
     else to_html table_classes df) ;;
  let shape := "(" ++ str_int (frame_shape0 df) ++ "x" ++ str_int (frame_shape1 df) ++ ")" in
  Ok ("<details><summary>" ++ span_key key ++ " <span class=" ++ dq ++ "meta type-tag"
        ++ dq ++ ">DataFrame " ++ shape ++ "</span></summary>"
        ++ table_wrapper table_html ++ "</details>").

(** [isinstance(val, np.ndarray)] branch; [render_dict] stands for the
    recursive call on the dict of slices. *)
Definition array_entry (render_dict : list (string * slice) -> Z -> result string)
           (level : Z) (key : string) (a : ndarray) : result string :=
  fmt <- format_array to_html a ;;
  let shape := str_shape (shape a) in
  let summary := "<details><summary>" ++ span_key key ++ " <span class=" ++ dq
                   ++ "meta type-tag" ++ dq ++ ">Array " ++ shape ++ "</span></summary>" in
  match fmt with
  | FormattedDict d =>
      inner <- render_dict d (level + 1) ;;
      Ok (summary ++ inner ++ "</details>")
  | FormattedHtml html => Ok (summary ++ table_wrapper html ++ "</details>")
  end.

(** [isinstance(val, str) and val.strip().startswith('<table')] branch. *)
Definition table_slice_entry (key val : string) : string :=
  "<details><summary>" ++ span_key key ++ " <span class=" ++ dq ++ "meta" ++ dq
    ++ ">[Table Slice]</span></summary>" ++ table_wrapper val ++ "</details>".

(** The final [else] branch, on [str(val)]. *)
Definition row_item (key str_val : string) : string :=
  "<div class=" ++ dq ++ "row-item" ++ dq ++ "><span class=" ++ dq ++ "key" ++ dq ++ ">"
    ++ key ++ ": </span><span class=" ++ dq ++ "val" ++ dq ++ ">"
    ++ html_escape str_val ++ "</span></div>".

Definition str_entry (key val : string) : string :=
  if is_table_markup val then table_slice_entry key val else row_item key val.

(** [isinstance(val, (dict, list))] branch: the summary line, then the
    rendering of the child container, then the closing tag. *)
Definition container_summary (level : Z) (key : string) (item_count : Z) : string :=
  let open_attr := if level <? 1 then "open" else "" in
  "<details " ++ open_attr ++ "><summary>" ++ span_key key ++ " <span class=" ++ dq
    ++ "meta" ++ dq ++ ">[" ++ str_int item_count ++ " items]</span></summary>".

Definition container_entry (level : Z) (key : string) (item_count : Z)
           (inner : string) : string :=
  container_summary level key item_count ++ inner ++ "</details>".

Definition li (body : string) : string := "<li>" ++ body ++ "</li>".

(** [render_recursive_html] on the dict of slices of an array of rank
    [rank + 3]: every entry is a sub-array of rank [rank + 2], or the
    closing note.  The recursion follows the rank, which [format_array]
    lowers by one at each level. *)
Fixpoint render_slices (rank : nat) (d : list (string * slice)) (level : Z)
  : result string :=
  render_tree
    (fun _ (entry : string * slice) =>
       let (key, val) := entry in
       body <-
         match val with
         | SliceArray a =>
             array_entry
               (match rank with
                | O => fun _ _ => Raise "maximum recursion depth exceeded"
                | S r => render_slices r
                end) level key a
         | SliceNote s => Ok (str_entry key s)
         end ;;
       Ok (li body))
    d.

Definition render_array_dict (a : ndarray) : list (string * slice) -> Z -> result string :=
  render_slices (ndim a - 3).

(** The loop body of [render_recursive_html] for one entry; [render] is
    the function itself, for the recursive call on a child container. *)
Definition entry_html (render : value -> Z -> result string)
           (level : Z) (key : string) (val : value) : result string :=
  body <-
    match val with
    | VDataFrame df => frame_entry key df
    | VSeries s => frame_entry key (to_frame s)
    | VArray a => array_entry (render_array_dict a) level key a
    | VDict items =>
        inner <- render val (level + 1) ;;
        Ok (container_entry level key (Z.of_nat (List.length items)) inner)
    | VList items =>
        inner <- render val (level + 1) ;;
        Ok (container_entry level key (Z.of_nat (List.length items)) inner)
    | VStr s => Ok (str_entry key s)
    | VOther o => s <- obj_str o ;; Ok (row_item key s)
    end ;;
  Ok (li body).

(** [render_recursive_html(data, level)] for a dict or a list.  It is
    never called on any other value. *)
Fixpoint render_recursive_html (data : value) (level : Z) {struct data}
  : result string :=
  match data with
  | VDict items =>
      render_tree
        (fun _ (entry : string * value) =>
           let (key, val) := entry in
           entry_html render_recursive_html level key val)
        items
  | VList items =>
      render_tree
        (fun i (val : value) =>
           entry_html render_recursive_html level (str_int i) val)
        items
  | _ => Raise "object is not iterable"
  end.

End Renderer.

(* ================================================================= *)
(** ** The entry point *)

(** One dict of [summary_list]. *)
Record summary : Type := Summary {
  summary_id : string;
  summary_type : string;
  summary_size : string
}.

(** [type(val).__name__] *)
Definition type_name (val : value) : string :=
  match val with
  | VDataFrame _ => "DataFrame"
  | VSeries _ => "Series"
  | VArray _ => "ndarray"
  | VDict _ => "dict"
  | VList _ => "list"
  | VStr _ => "str"
  | VOther o => obj_type o
  end.

Definition is_callable (val : value) : bool :=
  match val with VOther o => obj_callable o | _ => false end.

Definition is_module (val : value) : bool :=
  match val with VOther o => obj_module o | _ => false end.

Definition reserved_names : list string :=
  ["var_viper"; "pd"; "np"; "sys"; "os"; "html"; "json"; "tempfile";
   "webbrowser"; "types"; "traceback"].

(** The four [continue] tests at the head of [show]'s loop. *)
Definition skipped (name : string) (val : value) : bool :=
  String.prefix "_" name || is_callable val || is_module val
  || existsb (String.eqb name) reserved_names.

Section Show.
Context {F : PyFloat}.
Variable to_html : option string -> frame -> result string.

(** [get_preview_info]: the sidebar preview.  It wraps its whole body in
    [try/except] and so returns a string for every value; the text needs
    the numeric content of arrays and lists, which the embedding does not
    carry. *)
Variable get_preview_info : value -> string.

Definition show_marker (limit total : Z) : string :=
  "<div style='padding:10px; color:#75715e; font-style:italic'>(Showing first "
    ++ str_int limit ++ " rows of " ++ str_int total
    ++ " - Limited by display size)</div>".

Definition show_frame (df : frame) : result string :=
  limit <- estimate_df_limit to_html df ;;
  if frame_shape0 df >? limit then
    html_table <- to_html table_classes (head limit df) ;;
    Ok (html_table ++ show_marker limit (frame_shape0 df))
  else to_html table_classes df.

Definition tree_wrapper (tree : string) : string :=
  "<div class='tree-wrapper'>" ++ tree ++ "</div>".

Definition text_box (str_val : string) : string :=
  "<div class='text-box'>" ++ html_escape str_val ++ "</div>".

(** The body of the [try] block: the fragment of one value. *)
Definition format_value (val : value) : result string :=
  match val with
  | VDataFrame df => show_frame df
  | VSeries s => show_frame (to_frame s)
  | VArray a =>
      formatted_data <- format_array to_html a ;;
      match formatted_data with
      | FormattedDict d =>
          tree <- render_array_dict to_html a d 0 ;;
          Ok (tree_wrapper tree)
      | FormattedHtml html => Ok html
      end
  | VDict _ | VList _ =>
      tree <- render_recursive_html to_html val 0 ;;
      Ok (tree_wrapper tree)
  | VStr s => Ok (text_box s)
  | VOther o => s <- obj_str o ;; Ok (text_box s)
  end.

Definition error_box (name e : string) : string :=
  "<div class='error-box'>Error processing variable '" ++ name ++ "': " ++ e ++ "</div>".

(** [try: ... except Exception as e: ...] *)
Definition content_html (name : string) (val : value) : string :=
  match format_value val with
  | Ok html => html
  | Raise e => error_box name e
  end.

(** The loop of [show] over [local_vars.items()], threading
    [summary_list] and [data_store]. *)
Fixpoint show_loop (local_vars : list (string * value))
         (summary_list : list summary) (data_store : list (string * string))
  : list summary * list (string * string) :=
  match local_vars with
  | [] => (summary_list, data_store)
  | (name, val) :: rest =>
      if skipped name val then show_loop rest summary_list data_store
      else
        let size_info := get_preview_info val in
        show_loop rest
          (summary_list ++ [Summary name (type_name val) size_info])
          (dict_set data_store name (content_html name val))
  end.

(** [show(local_vars)]: the two arguments it hands to [generate_html]. *)
Definition show (local_vars : list (string * value))
  : list summary * list (string * string) :=
  show_loop local_vars [] [].

End Show.

(* ================================================================= *)
(** ** Binary64 floats, and two arithmetics for the estimator *)

(** IEEE 754 binary64, the float of CPython and the Number of JavaScript,
    on the Standard Library's executable specification. *)
Module B64.
Definition prec : Z := 53.
Definition emax : Z := 1024.

Definition nan : spec_float := S754_nan.
Definition zero : spec_float := S754_zero false.

(** The float nearest to an integer. *)
Definition of_Z (n : Z) : spec_float := binary_normalize prec emax n 0 false.

(** An integer as an unrounded operand. *)
Definition exact (n : Z) : spec_float :=
  match n with
  | Z0 => S754_zero false
  | Zpos p => S754_finite false p 0
  | Zneg p => S754_finite true p 0
  end.

Definition add : spec_float -> spec_float -> spec_float := SFadd prec emax.
Definition sub : spec_float -> spec_float -> spec_float := SFsub prec emax.
Definition mul : spec_float -> spec_float -> spec_float := SFmul prec emax.
Definition div : spec_float -> spec_float -> spec_float := SFdiv prec emax.

Definition is_nan (x : spec_float) : bool :=
  match x with S754_nan => true | _ => false end.


(** The integer part of a finite float, rounding toward zero; [0] on
    infinities and NaN. *)
Definition trunc (x : spec_float) : Z :=
  match x with
  | S754_finite s m e =>
      let v := if 0 <=? e then Z.pos m * 2 ^ e else Z.pos m / 2 ^ (- e) in
      if s then - v else v
  | _ => 0
  end.
End B64.

(** CPython's arithmetic.  [a / b] on two ints is the correctly rounded
    quotient; in [a / x] the int is converted first; [int(x)] truncates
    (it raises on infinities and NaN, which a quotient of the positive
    budget by a positive finite float never is). *)
#[export] Instance IEEEFloat : PyFloat := {|
  float := spec_float;
  int_truediv a b := B64.div (B64.exact a) (B64.exact b);
  int_div_float a x := B64.div (B64.of_Z a) x;
  float_le_int x n := SFleb x (B64.of_Z n);
  int_of_float := B64.trunc
|}.




(* ================================================================= *)
(** ** Stand-ins for pandas' renderer, to run the pipeline *)

(** A plain table renderer: one [<tr>] per row, the index label in a
    [<th>], one [<td>] per cell. *)
Definition plain_row (r : string * list cell) : string :=
  "<tr><th>" ++ fst r ++ "</th>"
    ++ String.concat "" (map (fun c => "<td>" ++ html_escape c ++ "</td>") (snd r))
    ++ "</tr>".

Definition plain_to_html (classes : option string) (df : frame) : result string :=
  Ok ("<table border=0 class='dataframe"
        ++ match classes with Some c => " " ++ c | None => "" end ++ "'><thead><tr><th></th>"
        ++ String.concat "" (map (fun c => "<th>" ++ html_escape c ++ "</th>") (columns df))
        ++ "</tr></thead><tbody>"
        ++ String.concat "" (map plain_row (rows df))
        ++ "</tbody></table>").

(** A renderer that raises on every frame. *)
Definition failing_to_html (classes : option string) (df : frame) : result string :=
  Raise "cannot render".


Definition empty_frame : frame := Frame ["x"; "y"] [].

Definition small_frame : frame :=
  Frame ["x"; "y"] [("0", ["1"; "3"]); ("1", ["2"; "4"])].



(** A vector of twelve cells and a 2 x 3 x 2 x 2 array of zeros. *)
Definition vector_12 : ndarray :=
  NDArray [12%nat] (map (fun i => str_int (Z.of_nat i)) (seq 0 12)).

Definition zeros (sh : list nat) : ndarray :=
  NDArray sh (repeat "0" (fold_right Nat.mul 1%nat sh)).

(* ================================================================= *)
(** ** The rank <= 2 rule as the specification words it *)

Section SpecRule.
Context {F : PyFloat}.
Variable to_html : option string -> frame -> result string.

(** Section 4.2, rule 2 with rule 1: wrap the array as tabular data,
    compute the row limit of 4.1 against the full data, and if
    [total_rows > limit] render only the first [limit] rows and attach
    the marker, else render all rows. *)
Definition format_array_on_full_data (a : ndarray) : result formatted :=
  match shape a with
  | [] =>
      Raise "too many indices for array: array is 0-dimensional, but 1 were indexed"
  | _ =>
      let total_rows := Z.of_nat (shape0 a) in
      limit <- estimate_df_limit to_html (frame_of_array a) ;;
      if total_rows >? limit then
        html_out <- to_html table_classes (frame_of_array (take_rows (Z.to_nat limit) a)) ;;
        Ok (FormattedHtml (html_out ++ array_marker limit total_rows))
      else
        html_out <- to_html table_classes (frame_of_array a) ;;
        Ok (FormattedHtml html_out)
  end.

(** The estimator as a function of its sample alone: what
    [estimate_df_limit] computes once [df.head(sample_size)] is taken. *)
Definition estimate_of_sample (sample : frame) : result Z :=
  if frame_shape0 sample =? 0 then Ok 0
  else
    sample_html <- to_html None sample ;;
    Ok (limit_of_bytes_per_row
          (int_truediv (len sample_html - 100) (frame_shape0 sample))).
End SpecRule.

(* ================================================================= *)
(** ** Vocabulary for the statements about the tree renderer *)

(** Concatenation and total length of rendered entries. *)
Fixpoint join (items : list string) : string :=
  match items with
  | [] => ""
  | item :: rest => item ++ join rest
  end.

Fixpoint sum_len (items : list string) : Z :=
  match items with
  | [] => 0
  | item :: rest => len item + sum_len rest
  end.

(** [items] are the renderings by [item_html] of the entries [pre], met at
    the iterator positions [count], [count + 1], ... *)
Fixpoint rendered_from {A : Type} (item_html : Z -> A -> result string)
         (count : Z) (pre : list A) (items : list string) : Prop :=
  match pre, items with
  | [], [] => True
  | entry :: pre', item :: items' =>
      item_html count entry = Ok item /\ rendered_from item_html (count + 1) pre' items'
  | _, _ => False
  end.

(** The budget test at the head of the loop passed before each of
    [items], starting from the counter value [current_html_len]. *)
Fixpoint within_budget (current_html_len : Z) (items : list string) : Prop :=
  match items with
  | [] => True
  | item :: rest =>
      current_html_len <= TARGET_BYTES_PER_VAR
      /\ within_budget (current_html_len + len item) rest
  end.

(** [enumerate(data)] from index [i], the index formatted as the key. *)
Fixpoint enumerate (i : Z) (items : list value) : list (string * value) :=
  match items with
  | [] => []
  | val :: rest => (str_int i, val) :: enumerate (i + 1) rest
  end.

(** The [(key, val)] pairs [render_recursive_html] iterates over. *)
Definition py_items (data : value) : list (string * value) :=
  match data with
  | VDict items => items
  | VList items => enumerate 0 items
  | _ => []
  end.

(** The loop body of [render_recursive_html] on one pair of the iterator. *)
Definition entry_of {F : PyFloat} (to_html : option string -> frame -> result string)
           (level : Z) (kv : string * value) : result string :=
  entry_html to_html (render_recursive_html to_html) level (fst kv) (snd kv).

Definition is_container (data : value) : bool :=
  match data with VDict _ | VList _ => true | _ => false end.

(** [depth + 1] lists nested around [val]. *)
Fixpoint nest (depth : nat) (val : value) : value :=
  match depth with
  | O => VList [val]
  | S d => VList [nest d val]
  end.


(** A string of one character more than the budget: ["x"] repeated
    [TARGET_BYTES_PER_VAR + 1] times.  It is sealed behind its defining
    equation, so that no conversion ever unfolds its fifteen million
    characters. *)
Lemma over_budget_sealed :
  { s : string | s = str_repeat "x" (Z.to_nat (TARGET_BYTES_PER_VAR + 1)) }.
Proof. eexists. reflexivity. Qed.

Definition over_budget_string : string := proj1_sig over_budget_sealed.

Definition slice_label (i : nat) : string := "Slice " ++ str_int (Z.of_nat i).

Definition slice_entries (a : ndarray) (start n : nat) : list (string * slice) :=
  map (fun i => (slice_label i, SliceArray (subarray a i))) (seq start n).

(** An object whose [__str__] raises. *)
Definition unprintable : value :=
  VOther (Object "Sensor" false false (Raise "sensor offline")).

(** A list whose first entry alone passes the budget. *)
Definition heavy_list : value :=
  VList [VStr over_budget_string; unprintable; VStr "tail"].

(* ================================================================= *)
(** ** Vocabulary for the statements about [show] *)

(** The value bound to [name] by the last pair of [local_vars] that [show]
    does not skip. *)
Fixpoint last_shown (name : string) (local_vars : list (string * value)) : option value :=
  match local_vars with
  | [] => None
  | (name', val) :: rest =>
      match last_shown name rest with
      | Some val' => Some val'
      | None => if String.eqb name' name && negb (skipped name' val) then Some val else None
      end
  end.

(** A snapshot with an unprintable object between two printable values. *)
Definition faulty_snapshot : list (string * value) :=
  [("count", VOther (Object "int" false false (Ok "42")));
   ("probe", unprintable);
   ("label", VStr "ready")].

(* ================================================================= *)
(** ** The client-side heatmap *)

(** JavaScript Numbers are binary64 floats: [spec_float] with the
    operations of [B64]. *)
Module JS.

(** White space and line terminators below code point 256, as
    [String.prototype.trim] and [parseFloat] strip them. *)
Definition is_space (c : ascii) : bool :=
  let n := nat_of_ascii c in
  ((9 <=? n) && (n <=? 13) || (n =? 32) || (n =? 160))%nat.

Fixpoint trim_start (s : string) : string :=
  match s with
  | EmptyString => EmptyString
  | String c rest => if is_space c then trim_start rest else s
  end.

Fixpoint string_rev_onto (s acc : string) : string :=
  match s with
  | EmptyString => acc
  | String c rest => string_rev_onto rest (String c acc)
  end.

Definition string_rev (s : string) : string := string_rev_onto s EmptyString.

(** [s.trim()] *)
Definition trim (s : string) : string :=
  string_rev (trim_start (string_rev (trim_start s))).

(** [isNaN(x)] on a Number. *)
Definition isNaN (x : spec_float) : bool := B64.is_nan x.








(** The digits at the head of a string: their value, their number, and
    the rest of the string. *)
Fixpoint digits (s : string) (acc : Z) (count : Z) : Z * Z * string :=
  match s with
  | String c rest =>
      let n := nat_of_ascii c in
      if ((48 <=? n) && (n <=? 57))%nat
      then digits rest (10 * acc + Z.of_nat (n - 48)) (count + 1)
      else (acc, count, s)
  | EmptyString => (acc, count, s)
  end.

(** The exponent part at the head of a string, if there is a complete
    one: [e] or [E], an optional sign, and at least one digit. *)
Definition exponent (s : string) : Z :=
  match s with
  | String c rest =>
      if Ascii.eqb c "e" || Ascii.eqb c "E" then
        let '(negative, rest') :=
          match rest with
          | String "-" r => (true, r)
          | String "+" r => (false, r)
          | _ => (false, rest)
          end in
        let '(value, count, _) := digits rest' 0 0 in
        if count =? 0 then 0 else if negative then - value else value
      else 0
  | EmptyString => 0
  end.

(** The Number nearest to [mantissa * 10 ^ exp10], with sign [negative]. *)
Definition decimal (negative : bool) (mantissa exp10 : Z) : spec_float :=
  match mantissa with
  | Zpos m =>
      if 0 <=? exp10
      then binary_normalize B64.prec B64.emax
             (if negative then - (mantissa * 10 ^ exp10) else mantissa * 10 ^ exp10)
             0 false
      else match 10 ^ (- exp10) with
           | Zpos d => B64.div (S754_finite negative m 0) (S754_finite false d 0)
           | _ => S754_nan
           end
  | _ => S754_zero negative
  end.

(** [parseFloat(s)]: leading white space, an optional sign, then
    [Infinity] or the longest decimal literal; NaN if there is none. *)
Definition parseFloat (s : string) : spec_float :=
  let s := trim_start s in
  let '(negative, s) :=
    match s with
    | String "-" r => (true, r)
    | String "+" r => (false, r)
    | _ => (false, s)
    end in
  if String.prefix "Infinity" s then S754_infinity negative
  else
    let '(int_part, int_count, rest) := digits s 0 0 in
    let '(mantissa, frac_count, rest) :=
      match rest with
      | String "." r =>
          let '(m, total, r') := digits r int_part int_count in
          (m, total - int_count, r')
      | _ => (int_part, 0, rest)
      end in
    if int_count + frac_count =? 0 then S754_nan
    else decimal negative mantissa (exponent rest - frac_count).

End JS.


Section Heatmap.

(** The [parseFloat] of the page's engine. *)
Variable parseFloat : string -> spec_float.

Definition is_placeholder (txt : string) : bool :=
  String.eqb txt "" || String.eqb txt "NaN" || String.eqb txt "None".








End Heatmap.



From Stdlib Require Import Sorting.Permutation Sorting.Sorted.

(* ================================================================= *)
(** ** The string preview of the sidebar *)

(** The [isinstance(val, str)] branch of [get_preview_info]:
    [(val[:20] + '...') if len(val) > 20 else val], between double quotes. *)
Definition preview_of_str (val : string) : string :=
  let preview :=
    if len val >? 20 then String.substring 0 20 val ++ "..." else val in
  dq ++ preview ++ dq.

(* ================================================================= *)
(** ** Vocabulary for further statements *)

(** The pairs of a snapshot that [show] does not skip. *)
Definition shown_vars (local_vars : list (string * value)) : list (string * value) :=
  filter (fun kv => negb (skipped (fst kv) (snd kv))) local_vars.

(** The arrays among the values of a dict of slices, in order. *)
Definition slice_arrays (d : list (string * slice)) : list ndarray :=
  flat_map (fun kv => match snd kv with
                      | SliceArray a => [a]
                      | SliceNote _ => []
                      end) d.

(** An array holds as many cells as its shape says. *)
Definition well_shaped (a : ndarray) : Prop :=
  List.length (data a) = fold_right Nat.mul 1%nat (shape a).

(** The characters [html.escape] replaces. *)
Definition is_markup_char (c : ascii) : bool :=
  Ascii.eqb c "&" || Ascii.eqb c "<" || Ascii.eqb c ">"
  || Ascii.eqb c (ascii_of_nat 34) || Ascii.eqb c "'".

(** The characters that stay dangerous after escaping: everything
    [html.escape] replaces, except the ampersand that opens an entity. *)
Definition is_raw_markup (c : ascii) : bool :=
  is_markup_char c && negb (Ascii.eqb c "&").

Fixpoint string_forallb (p : ascii -> bool) (s : string) : bool :=
  match s with
  | EmptyString => true
  | String c rest => p c && string_forallb p rest
  end.

(* ================================================================= *)
(** ** The cell selection of the page *)

(** [Array.prototype.sort(compareFn)]: the sort is stable, and with a
    consistent [compareFn] its result is the one sorted arrangement that
    keeps equal elements in their order.  [js_insert] puts [x] behind the
    elements that do not compare above it. *)
Fixpoint js_insert {A : Type} (compareFn : A -> A -> Z) (x : A) (sorted : list A) : list A :=
  match sorted with
  | [] => [x]
  | y :: rest =>
      if compareFn x y <? 0 then x :: y :: rest
      else y :: js_insert compareFn x rest
  end.

Definition js_sort {A : Type} (compareFn : A -> A -> Z) (l : list A) : list A :=
  fold_left (fun sorted x => js_insert compareFn x sorted) l [].

Inductive tag : Type := TH | TD.

(** A cell element of a table: [cell.tagName] and [cell.textContent]. *)
Record dom_cell : Type := DomCell {
  tagName : tag;
  textContent : string
}.

(** A [<table>] as pandas writes it: the rows of its [<thead>] and the
    rows of its [<tbody>], each row the list of its cells. *)
Record dom_table : Type := DomTable {
  thead : list (list dom_cell);
  tbody : list (list dom_cell)
}.

(** [table.rows]: the head rows, then the body rows. *)
Definition table_rows (table : dom_table) : list (list dom_cell) :=
  (thead table ++ tbody table)%list.

(** A cell element by its place: the table it belongs to, counted among
    the tables of the viewer, [cell.parentElement.rowIndex] and
    [cell.cellIndex]. *)
Record cell_ref : Type := CellRef {
  ref_table : nat;
  rowIndex : nat;
  cellIndex : nat
}.

Definition cell_ref_eqb (a b : cell_ref) : bool :=
  ((ref_table a =? ref_table b) && (rowIndex a =? rowIndex b)
   && (cellIndex a =? cellIndex b))%nat.

(** The tables of the viewer, and the table and the cell at a place. *)
Definition get_table (doc : list dom_table) (t : nat) : dom_table :=
  nth t doc (DomTable [] []).

Definition lookup_cell (doc : list dom_table) (ref : cell_ref) : option dom_cell :=
  match nth_error (table_rows (get_table doc (ref_table ref))) (rowIndex ref) with
  | Some row => nth_error row (cellIndex ref)
  | None => None
  end.

Definition is_tag (doc : list dom_table) (tg : tag) (ref : cell_ref) : bool :=
  match lookup_cell doc ref with
  | Some c => match tagName c, tg with
              | TD, TD | TH, TH => true
              | _, _ => false
              end
  | None => false
  end.

Definition text_of (doc : list dom_table) (ref : cell_ref) : string :=
  match lookup_cell doc ref with
  | Some c => textContent c
  | None => ""
  end.

(** The script's globals [isMouseDown], [startCell] and [activeTable],
    the cells that carry the class [selected-cell], in the order they
    received it, and the inline [display] and the text of the plot button. *)
Record page : Type := Page {
  isMouseDown : bool;
  startCell : option cell_ref;
  activeTable : option nat;
  selected : list cell_ref;
  btn_display : string;
  btn_text : string
}.

(** The page as loaded: the button's display comes from the style sheet,
    its inline style is empty. *)
Definition initial_page : page := Page false None None [] "" "Plot Selection".

(** [cell.classList.add('selected-cell')] *)
Definition add_selected (ref : cell_ref) (sel : list cell_ref) : list cell_ref :=
  if existsb (cell_ref_eqb ref) sel then sel else (sel ++ [ref])%list.

Definition updatePlotButton (st : page) : page :=
  let count := Z.of_nat (List.length (selected st)) in
  if count >? 1 then
    Page (isMouseDown st) (startCell st) (activeTable st) (selected st)
         "block" ("Plot " ++ str_int count ++ " points")
  else
    Page (isMouseDown st) (startCell st) (activeTable st) (selected st)
         "none" (btn_text st).

(** The inner loop of [selectRange] over the columns [c], [c + 1], ...,
    [n] of them, in the row [r] of table [t]. *)
Fixpoint select_cols (row : list dom_cell) (t r c n : nat) (sel : list cell_ref)
  : list cell_ref :=
  match n with
  | O => sel
  | S n' =>
      select_cols row t r (S c) n'
        (match nth_error row c with
         | Some (DomCell TD _) => add_selected (CellRef t r c) sel
         | _ => sel
         end)
  end.

(** The outer loop over the rows [r], [r + 1], ..., [n] of them. *)
Fixpoint select_rows (table : dom_table) (t r n minCol cols : nat) (sel : list cell_ref)
  : list cell_ref :=
  match n with
  | O => sel
  | S n' =>
      select_rows table t (S r) n' minCol cols
        (match nth_error (table_rows table) r with
         | Some row => select_cols row t r minCol cols sel
         | None => sel
         end)
  end.

(** [selectRange(table, start, end)], [table] being the table [t]. *)
Definition selectRange (doc : list dom_table) (t : nat) (start stop : cell_ref)
           (st : page) : page :=
  let startRow := rowIndex start in
  let endRow := rowIndex stop in
  let startCol := cellIndex start in
  let endCol := cellIndex stop in
  let minRow := Nat.min startRow endRow in
  let maxRow := Nat.max startRow endRow in
  let minCol := Nat.min startCol endCol in
  let maxCol := Nat.max startCol endCol in
  let sel := select_rows (get_table doc t) t minRow (S (maxRow - minRow))
                         minCol (S (maxCol - minCol)) [] in
  updatePlotButton
    (Page (isMouseDown st) (startCell st) (activeTable st) sel
          (btn_display st) (btn_text st)).

(** The column selection of a click on a head cell: the loop over the
    body rows from the [i]-th on. *)
Fixpoint select_column (body : list (list dom_cell)) (t first i colIdx : nat)
         (sel : list cell_ref) : list cell_ref :=
  match body with
  | [] => sel
  | r :: rest =>
      select_column rest t first (S i) colIdx
        (match nth_error r colIdx with
         | Some (DomCell TD _) => add_selected (CellRef t (first + i) colIdx) sel
         | _ => sel
         end)
  end.

(** The row selection of a click on an index cell: the [td] cells of the
    row, from the child [c] on. *)
Fixpoint select_row (row : list dom_cell) (t r c : nat) (sel : list cell_ref)
  : list cell_ref :=
  match row with
  | [] => sel
  | DomCell TD _ :: rest => select_row rest t r (S c) (add_selected (CellRef t r c) sel)
  | DomCell TH _ :: rest => select_row rest t r (S c) sel
  end.

(** What the user does to the tables that [makeTableSelectable] prepared. *)
Inductive event : Type :=
| CellMouseDown (button : Z) (td : cell_ref)
| CellMouseOver (td : cell_ref)
| MouseUp
| HeaderClick (on_resizer : bool) (th : cell_ref).

(** The listeners hang on [td] and on [th] elements of the viewer. *)
Definition event_ok (doc : list dom_table) (ev : event) : bool :=
  match ev with
  | CellMouseDown _ td => is_tag doc TD td
  | CellMouseOver td => is_tag doc TD td
  | MouseUp => true
  | HeaderClick _ th => is_tag doc TH th
  end.

(** The listeners of [makeTableSelectable] and the [mouseup] listener of
    the document. *)
Definition handle (doc : list dom_table) (st : page) (ev : event) : page :=
  match ev with
  | CellMouseDown button td =>
      if negb (button =? 0) then st
      else
        updatePlotButton
          (Page true (Some td) (Some (ref_table td)) (add_selected td [])
                (btn_display st) (btn_text st))
  | CellMouseOver td =>
      match startCell st with
      | Some start =>
          if isMouseDown st
             && match activeTable st with
                | Some t => (t =? ref_table td)%nat
                | None => false
                end
          then selectRange doc (ref_table td) start td st
          else st
      | None => st
      end
  | MouseUp =>
      Page false (startCell st) (activeTable st) (selected st)
           (btn_display st) (btn_text st)
  | HeaderClick on_resizer th =>
      if on_resizer then st
      else
        let t := ref_table th in
        let table := get_table doc t in
        let sel :=
          if (rowIndex th <? List.length (thead table))%nat
          then select_column (tbody table) t (List.length (thead table)) 0 (cellIndex th) []
          else match nth_error (table_rows table) (rowIndex th) with
               | Some row => select_row row t (rowIndex th) 0 []
               | None => []
               end in
        updatePlotButton
          (Page (isMouseDown st) (startCell st) (activeTable st) sel
                (btn_display st) (btn_text st))
  end.

(** The page after a sequence of events. *)
Definition run (doc : list dom_table) (evs : list event) (st : page) : page :=
  fold_left (handle doc) evs st.

(** Document order of the cells of one table. *)
Definition ref_lt (a b : cell_ref) : Prop :=
  (rowIndex a < rowIndex b
   \/ (rowIndex a = rowIndex b /\ cellIndex a < cellIndex b))%nat.

(** The cell [j] of a row is a [td]. *)
Definition td_at (row : list dom_cell) (j : nat) : bool :=
  match nth_error row j with
  | Some (DomCell TD _) => true
  | _ => false
  end.

(** [sel] lists [td] cells of the table [t], in document order. *)
Definition selection_of (doc : list dom_table) (t : nat) (sel : list cell_ref) : Prop :=
  Forall (fun ref => ref_table ref = t /\ is_tag doc TD ref = true) sel
  /\ StronglySorted ref_lt sel.

(** The state the listeners keep the page in. *)
Definition page_ok (doc : list dom_table) (st : page) : Prop :=
  (exists t, selection_of doc t (selected st))
  /\ (btn_display st = "block" <-> (1 < List.length (selected st))%nat)
  /\ (btn_display st = "block" ->
      btn_text st
      = "Plot " ++ str_int (Z.of_nat (List.length (selected st))) ++ " points")
  /\ (forall s, startCell st = Some s ->
                activeTable st = Some (ref_table s) /\ is_tag doc TD s = true)
  /\ (isMouseDown st = true -> startCell st <> None).

(** The cell lies in the rectangle spanned by [a] and [b]. *)
Definition in_rectangle (a b ref : cell_ref) : Prop :=
  (Nat.min (rowIndex a) (rowIndex b) <= rowIndex ref <= Nat.max (rowIndex a) (rowIndex b)
   /\ Nat.min (cellIndex a) (cellIndex b) <= cellIndex ref
      <= Nat.max (cellIndex a) (cellIndex b))%nat.

Definition is_mouseover (ev : event) : bool :=
  match ev with CellMouseOver _ => true | _ => false end.

(* ================================================================= *)
(** ** Copying and plotting the selection *)

Record key_event : Type := KeyEvent {
  ctrlKey : bool;
  metaKey : bool;
  key : string
}.

(** [if(!rows[r]) rows[r] = []; rows[r].push(cell)] on the object [rows],
    kept as the list of its properties. *)
Fixpoint push_row (grouped : list (nat * list cell_ref)) (r : nat) (td : cell_ref)
  : list (nat * list cell_ref) :=
  match grouped with
  | [] => [(r, [td])]
  | (r', tds) :: rest =>
      if (r' =? r)%nat then (r', (tds ++ [td])%list) :: rest
      else (r', tds) :: push_row rest r td
  end.

Definition group_rows (sel : list cell_ref) : list (nat * list cell_ref) :=
  fold_left (fun grouped td => push_row grouped (rowIndex td) td) sel [].

Fixpoint row_cells (grouped : list (nat * list cell_ref)) (idx : nat) : list cell_ref :=
  match grouped with
  | [] => []
  | (r', tds) :: rest => if (r' =? idx)%nat then tds else row_cells rest idx
  end.

Definition tab : string := String (ascii_of_nat 9) EmptyString.
Definition newline : string := String (ascii_of_nat 10) EmptyString.

(** The rows of the copy: for each row index of the selection, in
    ascending order, its cells by ascending [cellIndex]. *)
Definition copy_rows (sel : list cell_ref) : list (nat * list cell_ref) :=
  let grouped := group_rows sel in
  let rowIndices := js_sort (fun a b => Z.of_nat a - Z.of_nat b) (map fst grouped) in
  map (fun idx =>
         (idx, js_sort (fun a b => Z.of_nat (cellIndex a) - Z.of_nat (cellIndex b))
                       (row_cells grouped idx)))
      rowIndices.

(** [copySelection(e)]: the text put on the clipboard, if any. *)
Definition copySelection (doc : list dom_table) (e : key_event) (st : page)
  : option string :=
  if (ctrlKey e || metaKey e) && String.eqb (key e) "c" then
    match selected st with
    | [] => None
    | _ =>
        Some (String.concat newline
                (map (fun line =>
                        String.concat tab
                          (map (fun c => JS.trim (text_of doc c)) (snd line)))
                     (copy_rows (selected st))))
    end
  else None.

(** What [plotData] ends with: the alert, or the plot of [data]. *)
Inductive plot_outcome : Type :=
| Alert (message : string)
| Plot (data : list spec_float).

Section PlotData.
Variable parseFloat : string -> spec_float.

(** The body of the [forEach] of [plotData] on one cell text. *)
Definition push_value (data : list spec_float) (text : string) : list spec_float :=
  let txt := JS.trim text in
  if negb (String.eqb txt "") && negb (String.eqb txt "NaN") && negb (String.eqb txt "None")
  then
    let v := parseFloat txt in
    if negb (JS.isNaN v) then (data ++ [v])%list else data
  else data.

(** [plotData()] on the texts of the selected cells, in document order. *)
Definition plotData (texts : list string) : plot_outcome :=
  let data := fold_left push_value texts [] in
  if (List.length data <? 2)%nat
  then Alert "Select at least 2 numeric values to plot."
  else Plot data.

(** A cell text that [plotData] turns into a point. *)
Definition plottable (text : string) : bool :=
  negb (is_placeholder (JS.trim text)) && negb (JS.isNaN (parseFloat (JS.trim text))).
End PlotData.

(* ================================================================= *)
(** ** Sorting the sidebar *)

Section SortSelect.
(** [a.localeCompare(b)] of the page's engine and locale. *)
Variable localeCompare : string -> string -> Z.

(** The [change] listener of the sort menu: the list it hands to
    [renderList]. *)
Definition sort_variables (mode : string) (variables : list summary) : list summary :=
  let sorted := variables in
  if String.eqb mode "alpha" then
    js_sort (fun a b => localeCompare (summary_id a) (summary_id b)) sorted
  else if String.eqb mode "alpha-desc" then
    js_sort (fun a b => localeCompare (summary_id b) (summary_id a)) sorted
  else if String.eqb mode "created-desc" then List.rev sorted
  else sorted.
End SortSelect.

(** Code-unit order of two strings, as a [localeCompare]. *)
Definition compare_code_units (a b : string) : Z :=
  match String.compare a b with
  | Lt => -1
  | Eq => 0
  | Gt => 1
  end.

(** A table of one head row and three body rows of an index and two cells. *)
Definition sample_table : dom_table :=
  DomTable
    [[DomCell TH ""; DomCell TH "x"; DomCell TH "y"]]
    [[DomCell TH "0"; DomCell TD " 1 "; DomCell TD "2"];
     [DomCell TH "1"; DomCell TD "3"; DomCell TD "n/a"];
     [DomCell TH "2"; DomCell TD "5"; DomCell TD "6"]].

(* ================================================================= *)
(** * Properties *)

Unset Implicit Arguments.

(** ** Strings and lengths *)

Lemma length_append (s1 s2 : string) :
  String.length (s1 ++ s2) = (String.length s1 + String.length s2)%nat.
Proof.
  induction s1 as [|c s1 IH]; simpl; [reflexivity | now rewrite IH].
Qed.

Lemma len_append (s1 s2 : string) : len (s1 ++ s2) = len s1 + len s2.
Proof. unfold len. rewrite length_append. lia. Qed.

Lemma len_nonneg (s : string) : 0 <= len s.
Proof. unfold len. lia. Qed.

(** Brings [0 <= len x] into the context for every [len x] of the goal. *)
Ltac pose_len_nonneg :=
  repeat match goal with
         | |- context [len ?x] =>
             lazymatch goal with
             | _ : 0 <= len x |- _ => fail
             | _ => pose proof (len_nonneg x)
             end
         end.

Lemma append_assoc (s1 s2 s3 : string) : (s1 ++ s2) ++ s3 = s1 ++ (s2 ++ s3).
Proof.
  induction s1 as [|c s1 IH]; simpl; [reflexivity | now rewrite IH].
Qed.

Lemma append_empty_r (s : string) : s ++ "" = s.
Proof. induction s as [|c s IH]; simpl; [reflexivity | now rewrite IH]. Qed.

Lemma len_str_repeat (c : ascii) (n : nat) : len (str_repeat c n) = Z.of_nat n.
Proof.
  unfold len. f_equal. induction n as [|n IH]; simpl; [reflexivity | now rewrite IH].
Qed.

Lemma length_escape_char (c : ascii) : (1 <= String.length (escape_char c))%nat.
Proof.
  unfold escape_char.
  repeat match goal with |- context [if ?b then _ else _] => destruct b end;
    simpl; lia.
Qed.

Lemma len_html_escape (s : string) : len s <= len (html_escape s).
Proof.
  unfold len. apply inj_le.
  induction s as [|c s IH]; simpl; [lia|].
  rewrite length_append. pose proof (length_escape_char c). lia.
Qed.

Lemma string_of_to_int (n : Z) :
  NilZero.int_of_string (str_int n) = Some (Z.to_int n).
Proof.
  unfold str_int. apply NilZero.isi; destruct n; simpl; try discriminate;
    intros E; injection E as E; now apply DecimalPos.Unsigned.to_uint_nonnil in E.
Qed.

Lemma str_int_inj (n m : Z) : str_int n = str_int m -> n = m.
Proof.
  intros H. apply DecimalZ.to_int_inj.
  pose proof (string_of_to_int n) as Hn. rewrite H, string_of_to_int in Hn.
  now injection Hn.
Qed.

(* ================================================================= *)
(** ** The size estimator *)

Section EstimatorFacts.
Context {F : PyFloat}.
Variable to_html : option string -> frame -> result string.

Lemma limit_of_bytes_per_row_bounds (bytes_per_row : float) :
  50 <= limit_of_bytes_per_row bytes_per_row <= 200000.
Proof.
  unfold limit_of_bytes_per_row, ABSOLUTE_ROW_LIMIT.
  destruct (float_le_int bytes_per_row 0); lia.
Qed.

(** The sample [df.head(min(5, total_rows))] is the first five rows. *)
Lemma head_sample (df : frame) :
  head (Z.min 5 (frame_shape0 df)) df = Frame (columns df) (firstn 5 (rows df)).
Proof.
  unfold head, frame_shape0. f_equal.
  destruct (Z.min_spec 5 (Z.of_nat (List.length (rows df)))) as [[Hlt ->]|[Hle ->]].
  - reflexivity.
  - rewrite Nat2Z.id, firstn_all.
    symmetry. apply firstn_all2. lia.
Qed.

Lemma sample_size_length (df : frame) :
  Z.min 5 (frame_shape0 df) = Z.of_nat (List.length (firstn 5 (rows df))).
Proof. unfold frame_shape0. rewrite length_firstn. lia. Qed.

Lemma estimate_df_limit_sample (df : frame) :
  estimate_df_limit to_html df
  = estimate_of_sample to_html (Frame (columns df) (firstn 5 (rows df))).
Proof.
  unfold estimate_df_limit, estimate_of_sample.
  rewrite head_sample, sample_size_length.
  unfold frame_shape0 at 2. cbn [rows].
  destruct (rows df) as [|r rs] eqn:E.
  - unfold frame_shape0. rewrite E. reflexivity.
  - unfold frame_shape0. rewrite E.
    replace (Z.of_nat (List.length (r :: rs)) =? 0) with false
      by (symmetry; apply Z.eqb_neq; cbn [List.length]; lia).
    replace (Z.of_nat (List.length (firstn 5 (r :: rs))) =? 0) with false
      by (symmetry; apply Z.eqb_neq; cbn [firstn List.length]; lia).
    reflexivity.
Qed.


Lemma estimate_df_limit_same_sample (df1 df2 : frame) :
  columns df1 = columns df2 ->
  firstn 5 (rows df1) = firstn 5 (rows df2) ->
  estimate_df_limit to_html df1 = estimate_df_limit to_html df2.
Proof.
  intros Hc Hr. rewrite !estimate_df_limit_sample, Hc, Hr. reflexivity.
Qed.
End EstimatorFacts.

(** C6.  On a frame of zero rows [estimate_df_limit] returns 0 whatever the
    renderer is: it is not called, so even a renderer that raises on every
    frame changes nothing.  On a frame of at least one row the estimator
    returns a limit as soon as the sample of the first [min(5, total_rows)]
    rows renders, and every limit it returns lies between 50 and 200000. *)
Theorem estimate_df_limit_zero_and_clamped :
  forall (F : PyFloat) (to_html : option string -> frame -> result string) (df : frame),
    (frame_shape0 df = 0 -> estimate_df_limit to_html df = Ok 0) /\
    (0 < frame_shape0 df ->
       (forall sample_html,
           to_html None (head (Z.min 5 (frame_shape0 df)) df) = Ok sample_html ->
           exists limit, estimate_df_limit to_html df = Ok limit) /\
       (forall limit,
           estimate_df_limit to_html df = Ok limit -> 50 <= limit <= 200000)).
Proof.
  intros F to_html df. unfold estimate_df_limit. split.
  - intros ->. reflexivity.
  - intros Hpos.
    destruct (frame_shape0 df =? 0) eqn:E; [apply Z.eqb_eq in E; lia|].
    split.
    + intros sample_html ->. cbn [bind]. eexists; reflexivity.
    + intros limit.
      destruct (to_html None (head (Z.min 5 (frame_shape0 df)) df)) as [s|e];
        cbn [bind]; [|discriminate].
      intros [= <-]. apply limit_of_bytes_per_row_bounds.
Qed.

Lemma estimate_df_limit_zero_and_clamped_witness :
  estimate_df_limit (F := IEEEFloat) failing_to_html empty_frame = Ok 0
  /\ (exists limit, estimate_df_limit (F := IEEEFloat) plain_to_html small_frame = Ok limit)
  /\ 50 <= 200000 <= 200000.
Proof.
  split; [|split].
  - apply (estimate_df_limit_zero_and_clamped IEEEFloat failing_to_html empty_frame).
    reflexivity.
  - eapply (estimate_df_limit_zero_and_clamped IEEEFloat plain_to_html small_frame).
    + reflexivity.
    + vm_compute. reflexivity.
  - apply (estimate_df_limit_zero_and_clamped IEEEFloat plain_to_html small_frame).
    + reflexivity.
    + vm_compute. reflexivity.
Defined.






(** On binary64 floats: a sample of 600 characters for five rows costs 100
    bytes a row and gives the limit [int(15728640 / 100.0)]; a sample below
    the overhead gives the ceiling; the budget divided by one is the
    budget. *)
Example ieee_limit_of_100_bytes_per_row :
  limit_of_bytes_per_row (F := IEEEFloat) (@int_truediv IEEEFloat (600 - 100) 5)
  = 157286.
Proof. vm_compute. reflexivity. Qed.

Example ieee_limit_below_overhead :
  limit_of_bytes_per_row (F := IEEEFloat) (@int_truediv IEEEFloat (40 - 100) 1)
  = 200000.
Proof. vm_compute. reflexivity. Qed.

Example ieee_budget_div_one :
  @int_of_float IEEEFloat (@int_truediv IEEEFloat TARGET_BYTES_PER_VAR 1)
  = TARGET_BYTES_PER_VAR.
Proof. vm_compute. reflexivity. Qed.

(** On binary64 floats the antitone fact of [PyFloatOrder], checked on the
    quotients [n / k] for [n] from -5 to 30 and [k] from 1 to 5. *)
Example ieee_antitone_on_small_quotients :
  let quotients :=
    flat_map (fun n => map (fun k => @int_truediv IEEEFloat (Z.of_nat n - 5) (Z.of_nat k))
                           (seq 1 5)) (seq 0 36) in
  let limits :=
    map (fun x => (x, @int_of_float IEEEFloat
                        (@int_div_float IEEEFloat TARGET_BYTES_PER_VAR x))) quotients in
  forallb
    (fun xl =>
       forallb
         (fun yl =>
            implb (negb (@float_le_int IEEEFloat (fst xl) 0) && SFleb (fst xl) (fst yl))
                  (snd yl <=? snd xl))
         limits)
    limits
  = true.
Proof. vm_compute. reflexivity. Qed.

(* ================================================================= *)
(** ** Arrays as tables *)

Lemma ndim_take_rows (k : nat) (a : ndarray) :
  shape a <> [] -> ndim (take_rows k a) = ndim a.
Proof.
  unfold ndim, take_rows. cbn [shape].
  destruct (shape a) as [|n rest]; [congruence | reflexivity].
Qed.

Lemma stride_take_rows (k : nat) (a : ndarray) : stride (take_rows k a) = stride a.
Proof. reflexivity. Qed.

Lemma shape0_take_rows (k : nat) (a : ndarray) :
  shape0 (take_rows k a) = Nat.min k (shape0 a).
Proof. reflexivity. Qed.

(** Below the cut, [arr[:k][i]] holds the cells of [arr[i]]. *)
Lemma subarray_take_rows (k i : nat) (a : ndarray) :
  (i < Nat.min k (shape0 a))%nat ->
  data (subarray (take_rows k a) i) = data (subarray a i).
Proof.
  intros Hi. unfold subarray, take_rows, stride. cbn [data shape tl].
  set (w := fold_right Nat.mul 1%nat (tl (shape a))).
  rewrite skipn_firstn_comm, firstn_firstn. f_equal.
  apply Nat.min_l. nia.
Qed.

Lemma firstn_seq_min (k start n : nat) :
  firstn k (seq start n) = seq start (Nat.min k n).
Proof.
  revert start n. induction k as [|k IH]; intros start [|n]; cbn; try reflexivity.
  now rewrite IH.
Qed.

Lemma array_rows_take_rows (k : nat) (a : ndarray) :
  array_rows (take_rows k a) = firstn k (array_rows a).
Proof.
  unfold array_rows. rewrite shape0_take_rows, firstn_map, firstn_seq_min.
  apply map_ext_in. intros i Hi. apply in_seq in Hi.
  f_equal. apply subarray_take_rows. lia.
Qed.

Lemma frame_of_array_take_rows (k : nat) (a : ndarray) :
  shape a <> [] ->
  frame_of_array (take_rows k a)
  = Frame (columns (frame_of_array a)) (firstn k (rows (frame_of_array a))).
Proof.
  intros Hs. unfold frame_of_array.
  rewrite (ndim_take_rows k a Hs), stride_take_rows, array_rows_take_rows.
  destruct (ndim a =? 1)%nat; reflexivity.
Qed.


Section ArrayFacts.
Context {F : PyFloat}.
Variable to_html : option string -> frame -> result string.

Lemma estimate_take_rows_10 (a : ndarray) :
  shape a <> [] ->
  estimate_df_limit to_html (frame_of_array (take_rows 10 a))
  = estimate_df_limit to_html (frame_of_array a).
Proof.
  intros Hs. rewrite (frame_of_array_take_rows 10 a Hs).
  apply estimate_df_limit_same_sample; cbn [columns rows]; [reflexivity|].
  now rewrite firstn_firstn.
Qed.

Lemma format_array_table (a : ndarray) :
  (ndim a <= 2)%nat -> shape a <> [] ->
  format_array to_html a =
    (limit <- estimate_df_limit to_html (frame_of_array (take_rows 10 a)) ;;
     if Z.of_nat (shape0 a) >? limit then
       html_out <- to_html table_classes (frame_of_array (take_rows (Z.to_nat limit) a)) ;;
       Ok (FormattedHtml (html_out ++ array_marker limit (Z.of_nat (shape0 a))))
     else
       html_out <- to_html table_classes (frame_of_array a) ;;
       Ok (FormattedHtml html_out)).
Proof.
  intros Hr Hs. unfold format_array.
  apply Nat.leb_le in Hr. rewrite Hr.
  destruct (shape a) as [|n rest] eqn:E; [congruence|].
  destruct (estimate_df_limit to_html (frame_of_array (take_rows 10 a))) as [limit|e];
    cbn [bind]; [|reflexivity].
  destruct (Z.of_nat (shape0 a) >? limit); reflexivity.
Qed.
End ArrayFacts.

(** C10.  For an array of rank one or two, the limit [format_array] computes
    on the frame of the first ten rows is the limit the estimator returns on
    the frame of the whole array, and [format_array] as a whole agrees with
    the rule that computes the limit against the full data. *)
Theorem format_array_limit_agrees_with_full_data :
  forall (F : PyFloat) (to_html : option string -> frame -> result string) (a : ndarray),
    (ndim a = 1 \/ ndim a = 2)%nat ->
    estimate_df_limit to_html (frame_of_array (take_rows 10 a))
    = estimate_df_limit to_html (frame_of_array a)
    /\ format_array to_html a = format_array_on_full_data to_html a.
Proof.
  intros F to_html a Hr.
  assert (Hs : shape a <> []).
  { unfold ndim in Hr. destruct (shape a); [cbn in Hr; lia | discriminate]. }
  split; [now apply estimate_take_rows_10|].
  rewrite format_array_table by (assumption || lia).
  rewrite (estimate_take_rows_10 to_html a Hs).
  unfold format_array_on_full_data.
  destruct (shape a) as [|n rest] eqn:E; [congruence|].
  reflexivity.
Qed.

Lemma format_array_limit_agrees_with_full_data_witness :
  estimate_df_limit (F := IEEEFloat) plain_to_html (frame_of_array (take_rows 10 vector_12))
  = estimate_df_limit (F := IEEEFloat) plain_to_html (frame_of_array vector_12)
  /\ format_array (F := IEEEFloat) plain_to_html vector_12
     = format_array_on_full_data (F := IEEEFloat) plain_to_html vector_12.
Proof.
  apply (format_array_limit_agrees_with_full_data IEEEFloat plain_to_html vector_12).
  left. reflexivity.
Defined.



(* ================================================================= *)
(** ** The array slicer *)

Lemma dict_set_fresh {V : Type} (d : list (string * V)) (k : string) (v : V) :
  dict_get d k = None -> dict_set d k v = (d ++ [(k, v)])%list.
Proof.
  induction d as [|[k' v'] d IH]; cbn; [reflexivity|].
  destruct (String.eqb k' k); [discriminate|].
  intros H. now rewrite IH.
Qed.

Lemma dict_get_app_none {V : Type} (d1 d2 : list (string * V)) (k : string) :
  dict_get d1 k = None -> dict_get (d1 ++ d2)%list k = dict_get d2 k.
Proof.
  induction d1 as [|[k' v'] d1 IH]; cbn; [reflexivity|].
  destruct (String.eqb k' k); [discriminate | exact IH].
Qed.

Lemma slice_label_inj (i j : nat) : slice_label i = slice_label j -> i = j.
Proof.
  unfold slice_label. cbn. intros [= H]. apply str_int_inj in H. lia.
Qed.

Lemma slice_entries_fresh (a : ndarray) (start n j : nat) :
  (j < start \/ start + n <= j)%nat ->
  dict_get (slice_entries a start n) (slice_label j) = None.
Proof.
  unfold slice_entries. revert start. induction n as [|n IH]; intros start Hj;
    cbn [seq map dict_get]; [reflexivity|].
  destruct (String.eqb (slice_label start) (slice_label j)) eqn:E.
  - apply String.eqb_eq, slice_label_inj in E. lia.
  - apply IH. lia.
Qed.

Lemma slice_entries_no_dots (a : ndarray) (start n : nat) :
  dict_get (slice_entries a start n) "..." = None.
Proof.
  unfold slice_entries. revert start. induction n as [|n IH]; intros start;
    cbn [seq map dict_get]; [reflexivity|].
  unfold slice_label at 1. cbn. apply IH.
Qed.

Lemma slice_entries_snoc (a : ndarray) (start n : nat) :
  slice_entries a start (S n)
  = (slice_entries a start n
     ++ [(slice_label (start + n), SliceArray (subarray a (start + n)))])%list.
Proof.
  unfold slice_entries. rewrite seq_S, map_app. reflexivity.
Qed.

(** The loop of the slicer appends one fresh entry per index. *)
Lemma slice_loop_entries (a : ndarray) (n done : nat) :
  slice_loop a done n (slice_entries a 0 done) = slice_entries a 0 (done + n).
Proof.
  revert done. induction n as [|n IH]; intros done; cbn [slice_loop].
  - now rewrite Nat.add_0_r.
  - fold (slice_label done).
    rewrite dict_set_fresh by (apply slice_entries_fresh; lia).
    change done with (0 + done)%nat at 2 3.
    rewrite <- slice_entries_snoc, IH. f_equal. lia.
Qed.

Section SlicerFacts.
Context {F : PyFloat}.
Variable to_html : option string -> frame -> result string.

(** The dict [format_array] builds for a rank above two. *)
Lemma format_array_rank_above_two (a : ndarray) :
  (2 < ndim a)%nat ->
  format_array to_html a
  = Ok (FormattedDict
          (slice_entries a 0 (Nat.min (shape0 a) 50)
           ++ (if (50 <? shape0 a)%nat
               then [("...", SliceNote ("And " ++ str_int (Z.of_nat (shape0 a) - 50)
                                               ++ " more slices...")%string)]
               else []))%list).
Proof.
  intros Hr. unfold format_array.
  replace (ndim a <=? 2)%nat with false by (symmetry; apply Nat.leb_gt; lia).
  change (slice_loop a 0 (Nat.min (shape0 a) max_slices) [])
    with (slice_loop a 0 (Nat.min (shape0 a) max_slices) (slice_entries a 0 0)).
  rewrite slice_loop_entries. cbn [Nat.add]. unfold max_slices.
  destruct (50 <? shape0 a)%nat.
  - rewrite dict_set_fresh by apply slice_entries_no_dots. reflexivity.
  - now rewrite app_nil_r.
Qed.

(** Only a rank above two gives a dict, and its arrays have one axis less. *)
Lemma format_array_dict_inv (a : ndarray) (d : list (string * slice)) :
  format_array to_html a = Ok (FormattedDict d) ->
  (2 < ndim a)%nat
  /\ forall key sub, In (key, SliceArray sub) d -> ndim sub = (ndim a - 1)%nat.
Proof.
  intros Hfmt.
  assert (Hr : (2 < ndim a)%nat).
  { destruct (Nat.leb_spec (ndim a) 2) as [Hle|Hgt]; [|exact Hgt].
    unfold format_array in Hfmt.
    replace (ndim a <=? 2)%nat with true in Hfmt by (symmetry; apply Nat.leb_le; lia).
    destruct (shape a); [discriminate|].
    destruct (estimate_df_limit to_html _); cbn [bind] in Hfmt; [|discriminate].
    destruct (to_html table_classes _); cbn [bind] in Hfmt; discriminate. }
  split; [exact Hr|].
  rewrite (format_array_rank_above_two a Hr) in Hfmt. injection Hfmt as <-.
  intros key sub Hin. apply in_app_or in Hin. destruct Hin as [Hin|Hin].
  - unfold slice_entries in Hin. apply in_map_iff in Hin.
    destruct Hin as (i & [= _ <-] & _).
    unfold ndim, subarray. cbn [shape]. destruct (shape a); cbn; lia.
  - destruct (50 <? shape0 a)%nat; [|destruct Hin].
    destruct Hin as [[= _ ?]|[]].
Qed.
End SlicerFacts.

(** C7.  For an array of rank above two whose first axis has length [n],
    [format_array] returns a dict of exactly [min(n, 50)] entries
    ["Slice i"] holding the sub-arrays [arr[i]] in order, followed by exactly
    one entry ["..."] holding the string ["And n-50 more slices..."] if and
    only if [n > 50]; the dict never has more than 51 entries. *)
Theorem format_array_slices :
  forall (F : PyFloat) (to_html : option string -> frame -> result string) (a : ndarray),
    (2 < ndim a)%nat ->
    exists d,
      format_array to_html a = Ok (FormattedDict d) /\
      d = (slice_entries a 0 (Nat.min (shape0 a) 50)
           ++ (if (50 <? shape0 a)%nat
               then [("...", SliceNote ("And " ++ str_int (Z.of_nat (shape0 a) - 50)
                                               ++ " more slices...")%string)]
               else []))%list /\
      List.length (slice_entries a 0 (Nat.min (shape0 a) 50)) = Nat.min (shape0 a) 50 /\
      (List.length d <= 51)%nat.
Proof.
  intros F to_html a Hr. eexists. split; [|split; [reflexivity|split]].
  - now apply format_array_rank_above_two.
  - unfold slice_entries. now rewrite length_map, length_seq.
  - rewrite length_app. unfold slice_entries. rewrite length_map, length_seq.
    destruct (50 <? shape0 a)%nat; cbn [List.length]; lia.
Qed.

Lemma format_array_slices_witness :
  exists d,
    format_array (F := IEEEFloat) plain_to_html (zeros [60; 2; 2]%nat) = Ok (FormattedDict d) /\
    List.length d = 51%nat /\
    dict_get d "..." = Some (SliceNote "And 10 more slices...").
Proof.
  destruct (format_array_slices IEEEFloat plain_to_html (zeros [60; 2; 2]%nat))
    as [d [Hd [Hshape _]]].
  - cbn. lia.
  - exists d. split; [exact Hd|]. rewrite Hshape. vm_compute. split; reflexivity.
Defined.

(* ================================================================= *)
(** ** The loop of the tree renderer *)

Lemma sum_len_app (l1 l2 : list string) :
  sum_len (l1 ++ l2)%list = sum_len l1 + sum_len l2.
Proof. induction l1 as [|x l1 IH]; cbn; [reflexivity | rewrite IH; lia]. Qed.

Lemma join_app (l1 l2 : list string) : join (l1 ++ l2)%list = join l1 ++ join l2.
Proof.
  induction l1 as [|x l1 IH]; cbn; [reflexivity | now rewrite IH, append_assoc].
Qed.

Lemma len_join (l : list string) : len (join l) = sum_len l.
Proof. induction l as [|x l IH]; cbn; [reflexivity | now rewrite len_append, IH]. Qed.

Lemma sum_len_nonneg (l : list string) : 0 <= sum_len l.
Proof. induction l as [|x l IH]; cbn; [lia | pose proof (len_nonneg x); lia]. Qed.

Section TreeLoopFacts.
Variable A : Type.
Variable item_html : Z -> A -> result string.

Lemma rendered_from_length (count : Z) (pre : list A) (items : list string) :
  rendered_from item_html count pre items -> List.length pre = List.length items.
Proof.
  revert count items. induction pre as [|e pre IH]; intros count [|it items]; cbn;
    try tauto.
  intros [_ H]. f_equal. eauto.
Qed.

(** Entries rendered within the budget are consumed, and the loop goes on
    with the rest. *)
Lemma tree_loop_run (total_len : Z) (pre post : list A) (items : list string) :
  forall count current_html_len html_str,
    rendered_from item_html count pre items ->
    within_budget current_html_len items ->
    tree_loop item_html total_len (pre ++ post)%list count current_html_len html_str
    = tree_loop item_html total_len post
                (count + Z.of_nat (List.length pre))
                (current_html_len + sum_len items)
                (html_str ++ join items).
Proof.
  revert items. induction pre as [|e pre IH]; intros [|it items] count cur html;
    cbn [rendered_from within_budget]; try tauto.
  - intros _ _. cbn [sum_len join List.length]. change (Z.of_nat 0) with 0.
    now rewrite !Z.add_0_r, append_empty_r.
  - intros [Hit Hrest] [Hcur Hbudget].
    rewrite <- app_comm_cons. cbn [tree_loop].
    replace (cur >? TARGET_BYTES_PER_VAR) with false
      by (symmetry; rewrite Z.gtb_ltb; apply Z.ltb_ge; exact Hcur).
    rewrite Hit. cbn [bind].
    rewrite (IH items _ _ _ Hrest Hbudget).
    cbn [List.length sum_len join].
    f_equal; try lia. now rewrite append_assoc.
Qed.

(** Past the budget, one notice is appended and nothing else happens. *)
Lemma tree_loop_cutoff (total_len : Z) (post : list A) :
  forall count current_html_len html_str,
    TARGET_BYTES_PER_VAR < current_html_len ->
    tree_loop item_html total_len post count current_html_len html_str
    = Ok (html_str ++ match post with
                      | [] => ""
                      | _ => tree_notice (total_len - count)
                      end).
Proof.
  intros count cur html Hcur. destruct post as [|e post]; cbn [tree_loop].
  - now rewrite append_empty_r.
  - replace (cur >? TARGET_BYTES_PER_VAR) with true by (symmetry; apply Z.gtb_lt; lia).
    reflexivity.
Qed.

(** What a successful run of the loop has done. *)
Lemma tree_loop_inv (total_len : Z) (entries : list A) :
  forall count current_html_len html_str out,
    tree_loop item_html total_len entries count current_html_len html_str = Ok out ->
    exists pre post items,
      entries = (pre ++ post)%list /\
      rendered_from item_html count pre items /\
      within_budget current_html_len items /\
      (post <> [] -> TARGET_BYTES_PER_VAR < current_html_len + sum_len items) /\
      out = html_str ++ join items
              ++ match post with
                 | [] => ""
                 | _ => tree_notice (total_len - (count + Z.of_nat (List.length pre)))
                 end.
Proof.
  induction entries as [|e entries IH]; intros count cur html out; cbn [tree_loop].
  - intros [= <-]. exists [], [], [].
    cbn [rendered_from within_budget sum_len join List.length].
    repeat split; try tauto. now rewrite append_empty_r.
  - destruct (cur >? TARGET_BYTES_PER_VAR) eqn:Hcur.
    + intros [= <-]. exists [], (e :: entries), [].
      cbn [rendered_from within_budget sum_len join List.length].
      apply Z.gtb_lt in Hcur.
      repeat split; try tauto; try lia.
      change (Z.of_nat 0) with 0. now rewrite Z.add_0_r.
    + destruct (item_html count e) as [item|msg] eqn:Hitem; cbn [bind]; [|discriminate].
      intros Hloop. apply IH in Hloop.
      destruct Hloop as (pre & post & items & -> & Hr & Hb & Hover & ->).
      exists (e :: pre), post, (item :: items). cbn [rendered_from within_budget].
      rewrite Z.gtb_ltb in Hcur. apply Z.ltb_ge in Hcur.
      repeat split; try assumption.
      * intros Hp. specialize (Hover Hp). cbn [sum_len]. lia.
      * cbn [join List.length].
        rewrite !append_assoc. do 3 f_equal.
        destruct post; [reflexivity|]. do 2 f_equal. lia.
Qed.

Lemma tree_loop_ext (g : Z -> A -> result string) (total_len : Z) (entries : list A) :
  (forall i e, In e entries -> item_html i e = g i e) ->
  forall count current_html_len html_str,
    tree_loop item_html total_len entries count current_html_len html_str
    = tree_loop g total_len entries count current_html_len html_str.
Proof.
  induction entries as [|e entries IH]; intros Hext count cur html; cbn [tree_loop];
    [reflexivity|].
  rewrite (Hext count e (or_introl eq_refl)).
  destruct (cur >? TARGET_BYTES_PER_VAR); [reflexivity|].
  destruct (g count e); cbn [bind]; [|reflexivity].
  apply IH. intros i e' Hin. apply Hext. now right.
Qed.
End TreeLoopFacts.

(* ================================================================= *)
(** ** The tree renderer on dicts and lists *)

Lemma length_enumerate (i : Z) (items : list value) :
  List.length (enumerate i items) = List.length items.
Proof.
  revert i. induction items as [|v items IH]; intros i; cbn; [reflexivity|].
  now rewrite IH.
Qed.

Lemma tree_loop_enumerate (h : string -> value -> result string)
      (total_len : Z) (items : list value) :
  forall count current_html_len html_str,
    tree_loop (fun i val => h (str_int i) val) total_len items
              count current_html_len html_str
    = tree_loop (fun _ kv => h (fst kv) (snd kv)) total_len (enumerate count items)
                count current_html_len html_str.
Proof.
  induction items as [|v items IH]; intros count cur html; cbn [tree_loop enumerate];
    [reflexivity|].
  destruct (cur >? TARGET_BYTES_PER_VAR); [reflexivity|].
  cbn [fst snd]. destruct (h (str_int count) v); cbn [bind]; [|reflexivity].
  apply IH.
Qed.

Lemma rendered_from_Forall2 (A : Type) (h : A -> result string)
      (pre : list A) (items : list string) :
  Forall2 (fun entry item => h entry = Ok item) pre items ->
  forall count, rendered_from (fun _ entry => h entry) count pre items.
Proof.
  induction 1 as [|e it pre items He _ IH]; intros count; cbn [rendered_from];
    [exact I | split; [exact He | apply IH]].
Qed.

Lemma Forall2_rendered_from (A : Type) (h : A -> result string)
      (pre : list A) (items : list string) (count : Z) :
  rendered_from (fun _ entry => h entry) count pre items ->
  Forall2 (fun entry item => h entry = Ok item) pre items.
Proof.
  revert items count. induction pre as [|e pre IH]; intros [|it items] count;
    cbn [rendered_from]; try tauto; try constructor.
  - tauto.
  - destruct H as [_ H]. eauto.
Qed.

Section RendererFacts.
Context {F : PyFloat}.
Variable to_html : option string -> frame -> result string.

(** [render_recursive_html] is its loop over [py_items]. *)
Lemma render_recursive_html_items (data : value) (level : Z) :
  is_container data = true ->
  render_recursive_html to_html data level
  = render_tree (fun _ kv => entry_of to_html level kv) (py_items data).
Proof.
  destruct data as [| | |items|items| |]; try discriminate; intros _;
    cbn [render_recursive_html py_items]; unfold render_tree.
  - f_equal. apply tree_loop_ext. intros i [k v] _. reflexivity.
  - rewrite length_enumerate. f_equal.
    apply (tree_loop_enumerate
             (fun key val => entry_html to_html (render_recursive_html to_html) level key val)).
Qed.

(** The renderer on entries rendered within the budget, the counter past
    the budget after the last of them, and [post] left over. *)
Lemma render_recursive_html_cutoff (data : value) (level : Z)
      (pre post : list (string * value)) (items : list string) :
  is_container data = true ->
  py_items data = (pre ++ post)%list ->
  Forall2 (fun kv item => entry_of to_html level kv = Ok item) pre items ->
  within_budget 0 items ->
  TARGET_BYTES_PER_VAR < sum_len items ->
  render_recursive_html to_html data level
  = Ok (ul_open ++ join items
          ++ match post with
             | [] => ""
             | _ => tree_notice (Z.of_nat (List.length post))
             end ++ "</ul>").
Proof.
  intros Hc Hitems Hpre Hbudget Hover.
  rewrite (render_recursive_html_items data level Hc), Hitems. unfold render_tree.
  rewrite (tree_loop_run _ (fun _ kv => entry_of to_html level kv) _ pre post items 0 0 ul_open
             (rendered_from_Forall2 _ _ _ _ Hpre 0) Hbudget).
  rewrite tree_loop_cutoff by lia. cbn [bind].
  rewrite !append_assoc. do 3 f_equal.
  destruct post; [reflexivity|]. do 2 f_equal.
  rewrite length_app. lia.
Qed.
End RendererFacts.

Lemma over_budget_string_eq :
  over_budget_string = str_repeat "x" (Z.to_nat (TARGET_BYTES_PER_VAR + 1)).
Proof. exact (proj2_sig over_budget_sealed). Qed.

Lemma over_budget_len : len over_budget_string = TARGET_BYTES_PER_VAR + 1.
Proof.
  rewrite over_budget_string_eq, len_str_repeat.
  apply Z2Nat.id. unfold TARGET_BYTES_PER_VAR. lia.
Qed.

Lemma str_repeat_x_not_table (n : nat) : is_table_markup (str_repeat "x" n) = false.
Proof. destruct n; reflexivity. Qed.

Lemma over_budget_not_table : is_table_markup over_budget_string = false.
Proof. rewrite over_budget_string_eq. apply str_repeat_x_not_table. Qed.

Lemma li_row_item_len (key s : string) : len s < len (li (row_item key s)).
Proof.
  unfold li, row_item. rewrite !len_append.
  pose proof (len_html_escape s). pose_len_nonneg.
  change (len "<li>") with 4 in *. lia.
Qed.

Lemma entry_of_string (F : PyFloat) (to_html : option string -> frame -> result string)
      (level : Z) (key s : string) :
  is_table_markup s = false ->
  entry_of to_html level (key, VStr s) = Ok (li (row_item key s)).
Proof.
  intros Hs. unfold entry_of, entry_html, str_entry. cbn [fst snd bind].
  now rewrite Hs.
Qed.

Lemma tree_notice_len (remaining : Z) : 0 < len (tree_notice remaining).
Proof.
  unfold tree_notice. rewrite !len_append. pose_len_nonneg.
  change (len "<li style=") with 10 in *. lia.
Qed.

(** C3, as amended.  Let the entries [pre] of a dict or list be rendered
    within the budget and let the counter exceed the budget after the last
    of them.  If entries remain, the renderer appends exactly one notice,
    which states their number, and closes the list; if none remains it
    closes the list without a notice.  The remaining entries are never
    rendered: a container with any other remaining entries of the same
    number, also ones whose rendering would raise, gives the same
    output. *)
Theorem tree_cutoff_notice :
  forall (F : PyFloat) (to_html : option string -> frame -> result string)
         (data : value) (level : Z)
         (pre post : list (string * value)) (items : list string),
    is_container data = true ->
    py_items data = (pre ++ post)%list ->
    Forall2 (fun kv item => entry_of to_html level kv = Ok item) pre items ->
    within_budget 0 items ->
    TARGET_BYTES_PER_VAR < sum_len items ->
    render_recursive_html to_html data level
    = Ok (ul_open ++ join items
            ++ match post with
               | [] => ""
               | _ => tree_notice (Z.of_nat (List.length post))
               end ++ "</ul>")
    /\ forall data' post',
        is_container data' = true ->
        py_items data' = (pre ++ post')%list ->
        List.length post' = List.length post ->
        render_recursive_html to_html data' level
        = render_recursive_html to_html data level.
Proof.
  intros F to_html data level pre post items Hc Hitems Hpre Hbudget Hover.
  split.
  - now apply render_recursive_html_cutoff with (pre := pre).
  - intros data' post' Hc' Hitems' Hlen.
    rewrite (render_recursive_html_cutoff to_html data level pre post items
               Hc Hitems Hpre Hbudget Hover).
    rewrite (render_recursive_html_cutoff to_html data' level pre post' items
               Hc' Hitems' Hpre Hbudget Hover).
    rewrite Hlen. destruct post, post'; try discriminate; reflexivity.
Qed.

Lemma tree_cutoff_notice_witness :
  render_recursive_html (F := IEEEFloat) plain_to_html heavy_list 0
  = Ok (ul_open ++ join [li (row_item "0" over_budget_string)]
          ++ tree_notice 2 ++ "</ul>").
Proof.
  apply (tree_cutoff_notice IEEEFloat plain_to_html heavy_list 0
           [("0", VStr over_budget_string)]
           [("1", unprintable); ("2", VStr "tail")]
           [li (row_item "0" over_budget_string)]).
  - reflexivity.
  - reflexivity.
  - constructor; [|constructor].
    apply entry_of_string. apply over_budget_not_table.
  - cbn [within_budget]. split; [|exact I]. unfold TARGET_BYTES_PER_VAR. lia.
  - cbn [sum_len]. pose proof (li_row_item_len "0" over_budget_string).
    rewrite over_budget_len in H. lia.
Defined.

(** C3, the claim as stated, fails when the counter passes the budget on
    the last entry: nothing remains, and no notice is emitted. *)
Lemma tree_cutoff_last_entry_no_notice :
  let item := li (row_item "0" over_budget_string) in
  TARGET_BYTES_PER_VAR < 0 + len item
  /\ render_recursive_html (F := IEEEFloat) plain_to_html
       (VList [VStr over_budget_string]) 0
     = Ok (ul_open ++ item ++ "</ul>")
  /\ forall remaining,
       ul_open ++ item ++ "</ul>" <> ul_open ++ item ++ tree_notice remaining ++ "</ul>".
Proof.
  intros item.
  assert (Hlen : TARGET_BYTES_PER_VAR < len item).
  { pose proof (li_row_item_len "0" over_budget_string) as H.
    rewrite over_budget_len in H. fold item in H. lia. }
  split; [lia|]. split.
  - pose proof (render_recursive_html_cutoff (F := IEEEFloat) plain_to_html
                  (VList [VStr over_budget_string]) 0
                  [("0", VStr over_budget_string)] [] [item]) as H.
    cbn [join] in H. rewrite append_empty_r in H. apply H.
    + reflexivity.
    + reflexivity.
    + constructor; [|constructor].
      apply entry_of_string. apply over_budget_not_table.
    + cbn [within_budget]. split; [|exact I]. unfold TARGET_BYTES_PER_VAR. lia.
    + cbn [sum_len]. lia.
  - intros remaining Heq. apply (f_equal len) in Heq.
    rewrite !len_append in Heq. pose proof (tree_notice_len remaining). lia.
Qed.

(* ================================================================= *)
(** ** Fragment sizes *)

Lemma within_budget_removelast (cur : Z) (items : list string) :
  within_budget cur items -> items <> [] ->
  cur + sum_len (removelast items) <= TARGET_BYTES_PER_VAR.
Proof.
  revert cur. induction items as [|it items IH]; intros cur; [congruence|].
  cbn [within_budget]. intros [Hcur Hrest] _.
  destruct items as [|it' items].
  - cbn [removelast sum_len]. lia.
  - change (removelast (it :: it' :: items)) with (it :: removelast (it' :: items)).
    cbn [sum_len]. specialize (IH _ Hrest ltac:(discriminate)). lia.
Qed.

Lemma text_box_len (s : string) : len (text_box s) = 28 + len (html_escape s).
Proof.
  unfold text_box. rewrite !len_append.
  change (len "<div class='text-box'>") with 22. change (len "</div>") with 6. lia.
Qed.

(** C1, as amended.  A string, or any other object that prints, becomes a
    text box of 28 characters around its escaped text, with no truncation.
    For a dict or list, the fragment is the wrapper around the opening tag,
    the rendered entries, at most one notice and the closing tag, and the
    rendered entries but the last add up to at most
    [TARGET_BYTES_PER_VAR]: the budget is tested before an entry is
    rendered, never after. *)
Theorem fragment_size_budget :
  forall (F : PyFloat) (to_html : option string -> frame -> result string),
    (forall s,
        format_value to_html (VStr s) = Ok (text_box s)
        /\ len (text_box s) = 28 + len (html_escape s)
        /\ len s <= len (html_escape s)) /\
    (forall o s,
        obj_str o = Ok s -> format_value to_html (VOther o) = Ok (text_box s)) /\
    (forall data frag,
        is_container data = true ->
        format_value to_html data = Ok frag ->
        exists items notice pre post,
          frag = tree_wrapper (ul_open ++ join items ++ notice ++ "</ul>")
          /\ sum_len (removelast items) <= TARGET_BYTES_PER_VAR
          /\ (notice = "" \/ exists remaining, notice = tree_notice remaining)
          /\ py_items data = (pre ++ post)%list
          /\ Forall2 (fun kv item => entry_of to_html 0 kv = Ok item) pre items).
Proof.
  intros F to_html. split; [|split].
  - intros s. split; [reflexivity|]. split; [apply text_box_len | apply len_html_escape].
  - intros o s Hs. cbn [format_value]. rewrite Hs. reflexivity.
  - intros data frag Hc Hfrag.
    assert (Hfmt : format_value to_html data
                   = (tree <- render_recursive_html to_html data 0 ;; Ok (tree_wrapper tree)))
      by (destruct data; try discriminate; reflexivity).
    rewrite Hfmt, (render_recursive_html_items to_html data 0 Hc) in Hfrag.
    unfold render_tree in Hfrag.
    destruct (tree_loop _ _ _ _ _ _) as [out|] eqn:Hloop; cbn [bind] in Hfrag;
      [|discriminate].
    injection Hfrag as <-.
    apply tree_loop_inv in Hloop.
    destruct Hloop as (pre & post & items & Hitems & Hr & Hb & _ & ->).
    exists items,
      (match post with
       | [] => ""
       | _ => tree_notice (Z.of_nat (List.length (py_items data))
                           - (0 + Z.of_nat (List.length pre)))
       end), pre, post.
    split; [|split; [|split; [|split]]].
    + now rewrite !append_assoc.
    + destruct items as [|it items].
      * cbn. unfold TARGET_BYTES_PER_VAR. lia.
      * pose proof (within_budget_removelast 0 (it :: items) Hb ltac:(discriminate)). lia.
    + destruct post; [now left | right; eexists; reflexivity].
    + exact Hitems.
    + eapply Forall2_rendered_from. exact Hr.
Qed.

Lemma fragment_size_budget_witness :
  exists items notice,
    format_value (F := IEEEFloat) plain_to_html (VList [VStr "a"; VStr "b"])
    = Ok (tree_wrapper (ul_open ++ join items ++ notice ++ "</ul>"))
    /\ sum_len (removelast items) <= TARGET_BYTES_PER_VAR.
Proof.
  destruct (proj2 (proj2 (fragment_size_budget IEEEFloat plain_to_html))
                  (VList [VStr "a"; VStr "b"])
                  (tree_wrapper (ul_open ++ join [li (row_item "0" "a"); li (row_item "1" "b")]
                                         ++ "" ++ "</ul>")))
    as (items & notice & pre & post & Hfrag & Hsum & _).
  - reflexivity.
  - vm_compute. reflexivity.
  - exists items, notice. split; [|exact Hsum].
    rewrite <- Hfrag. vm_compute. reflexivity.
Defined.

(** C1, the claim as stated, fails on a string longer than the budget: its
    text box is stored whole. *)
Lemma text_box_over_budget :
  dict_get (snd (show (F := IEEEFloat) plain_to_html (fun _ => "-")
                      [("s", VStr over_budget_string)])) "s"
  = Some (text_box over_budget_string)
  /\ TARGET_BYTES_PER_VAR < len (text_box over_budget_string).
Proof.
  split; [reflexivity|].
  rewrite text_box_len. pose proof (len_html_escape over_budget_string) as H.
  rewrite over_budget_len in H. lia.
Qed.

(* ================================================================= *)
(** ** The tree renderer on the dict of slices *)

Lemma tree_loop_map (A B : Type) (g : A -> B) (item_html : Z -> B -> result string)
      (total_len : Z) (entries : list A) :
  forall count current_html_len html_str,
    tree_loop item_html total_len (map g entries) count current_html_len html_str
    = tree_loop (fun i entry => item_html i (g entry)) total_len entries
                count current_html_len html_str.
Proof.
  induction entries as [|e entries IH]; intros count cur html; cbn [map tree_loop];
    [reflexivity|].
  destruct (cur >? TARGET_BYTES_PER_VAR); [reflexivity|].
  destruct (item_html count (g e)); cbn [bind]; [|reflexivity].
  apply IH.
Qed.

Section SliceRendering.
Context {F : PyFloat}.
Variable to_html : option string -> frame -> result string.

(** The rank that [render_slices] follows is only a bound: any two ranks
    that cover the arrays of the dict give the same rendering, and the case
    of an exhausted rank is never reached. *)
Lemma render_slices_rank (rank1 : nat) :
  forall rank2 d level,
    (forall key sub, In (key, SliceArray sub) d ->
       (ndim sub <= rank1 + 2)%nat /\ (ndim sub <= rank2 + 2)%nat) ->
    render_slices to_html rank1 d level = render_slices to_html rank2 d level.
Proof.
  induction rank1 as [|rank1 IH]; intros rank2 d level Hd.
  - destruct rank2; cbn [render_slices]; unfold render_tree; f_equal;
      apply tree_loop_ext; intros i [key [sub|s]] Hin; try reflexivity;
      unfold array_entry;
      destruct (format_array to_html sub) as [[html|d']|] eqn:Hfmt; cbn [bind];
      try reflexivity.
    apply format_array_dict_inv in Hfmt. destruct (Hd key sub Hin). lia.
  - destruct rank2; cbn [render_slices]; unfold render_tree; f_equal;
      apply tree_loop_ext; intros i [key [sub|s]] Hin; try reflexivity;
      unfold array_entry;
      destruct (format_array to_html sub) as [[html|d']|] eqn:Hfmt; cbn [bind];
      try reflexivity.
    + apply format_array_dict_inv in Hfmt. destruct (Hd key sub Hin). lia.
    + apply format_array_dict_inv in Hfmt. destruct Hfmt as [Hr Hsub].
      destruct (Hd key sub Hin) as [H1 H2].
      rewrite (IH rank2 d' (level + 1)); [reflexivity|].
      intros key' sub' Hin'. rewrite (Hsub key' sub' Hin'). lia.
Qed.

(** On the dict of slices of an array, [render_slices] is
    [render_recursive_html] applied to that dict. *)
Lemma render_array_dict_is_render_recursive_html (a : ndarray) :
  forall d level,
    format_array to_html a = Ok (FormattedDict d) ->
    render_array_dict to_html a d level
    = render_recursive_html to_html
        (VDict (map (fun kv => (fst kv, slice_value (snd kv))) d)) level.
Proof.
  intros d level Hfmt.
  destruct (format_array_dict_inv to_html a d Hfmt) as [Hr Hsub].
  unfold render_array_dict.
  destruct (ndim a - 3)%nat as [|rank] eqn:Hrank; cbn [render_slices render_recursive_html];
    unfold render_tree; rewrite length_map; f_equal;
    rewrite tree_loop_map; apply tree_loop_ext;
    intros i [key [sub|s]] Hin; try reflexivity; cbn [fst snd slice_value];
    unfold entry_html, array_entry, render_array_dict;
    destruct (format_array to_html sub) as [[html|d']|] eqn:Hfmt'; cbn [bind];
    try reflexivity.
  - apply format_array_dict_inv in Hfmt'. rewrite (Hsub key sub Hin) in Hfmt'. lia.
  - apply format_array_dict_inv in Hfmt'. destruct Hfmt' as [Hr' Hsub'].
    pose proof (Hsub key sub Hin) as Hn.
    rewrite (render_slices_rank rank (ndim sub - 3) d' (level + 1)); [reflexivity|].
    intros key' sub' Hin'. rewrite (Hsub' key' sub' Hin'). lia.
Qed.
End SliceRendering.

(** The 4-D array of the test suite: two slices of shape (2, 3, 3), each of
    two slices of shape (3, 3), which are tables. *)
Example hypercube_slices :
  match format_array (F := IEEEFloat) plain_to_html (zeros [2; 2; 3; 3]%nat) with
  | Ok (FormattedDict d) =>
      map (fun kv => match snd kv with
                     | SliceArray sub =>
                         (fst kv, shape sub,
                          match format_array (F := IEEEFloat) plain_to_html sub with
                          | Ok (FormattedDict d') =>
                              map (fun kv' => match snd kv' with
                                              | SliceArray s => (fst kv', shape s)
                                              | SliceNote _ => (fst kv', [])
                                              end) d'
                          | _ => []
                          end)
                     | SliceNote _ => (fst kv, [], [])
                     end) d
  | _ => []
  end
  = [("Slice 0", [2; 3; 3]%nat, [("Slice 0", [3; 3]%nat); ("Slice 1", [3; 3]%nat)]);
     ("Slice 1", [2; 3; 3]%nat, [("Slice 0", [3; 3]%nat); ("Slice 1", [3; 3]%nat)])].
Proof. vm_compute. reflexivity. Qed.

(* ================================================================= *)
(** ** Nesting depth *)


Section DepthFacts.
Context {F : PyFloat}.
Variable to_html : option string -> frame -> result string.





End DepthFacts.





(* ================================================================= *)
(** ** The entry point *)

Lemma dict_get_dict_set {V : Type} (d : list (string * V)) (k k' : string) (v : V) :
  dict_get (dict_set d k v) k' = if String.eqb k k' then Some v else dict_get d k'.
Proof.
  induction d as [|[k0 v0] d IH]; cbn [dict_set dict_get].
  - reflexivity.
  - destruct (String.eqb k0 k) eqn:E0; cbn [dict_get].
    + apply String.eqb_eq in E0. subst k0.
      destruct (String.eqb k k'); reflexivity.
    + rewrite IH. destruct (String.eqb k0 k') eqn:E1; [|reflexivity].
      apply String.eqb_eq in E1. subst k0. now rewrite String.eqb_sym, E0.
Qed.

Lemma last_shown_app (name : string) (l1 l2 : list (string * value)) :
  last_shown name (l1 ++ l2)%list
  = match last_shown name l2 with
    | Some val => Some val
    | None => last_shown name l1
    end.
Proof.
  induction l1 as [|[name' val] l1 IH].
  { change ([] ++ l2)%list with l2. destruct (last_shown name l2); reflexivity. }
  rewrite <- app_comm_cons. cbn [last_shown]. rewrite IH.
  destruct (last_shown name l2); reflexivity.
Qed.

Lemma last_shown_absent (name : string) (l : list (string * value)) :
  ~ In name (map fst l) -> last_shown name l = None.
Proof.
  induction l as [|[name' val] l IH]; [reflexivity|].
  cbn [map fst In last_shown]. intros Hnot.
  rewrite IH by tauto.
  destruct (String.eqb name' name) eqn:E; [|reflexivity].
  apply String.eqb_eq in E. tauto.
Qed.

Lemma last_shown_skip_other (name other : string) (val : value)
      (pre post : list (string * value)) :
  other <> name ->
  last_shown other (pre ++ (name, val) :: post)%list = last_shown other (pre ++ post)%list.
Proof.
  intros Hne. rewrite !last_shown_app. cbn [last_shown].
  destruct (last_shown other post); [reflexivity|].
  replace (String.eqb name other) with false; [reflexivity|].
  symmetry. apply String.eqb_neq. congruence.
Qed.
Section ShowFacts.
Context {F : PyFloat}.
Variable to_html : option string -> frame -> result string.
Variable get_preview_info : value -> string.

Lemma show_loop_app (l1 l2 : list (string * value)) :
  forall summary_list data_store,
    show_loop to_html get_preview_info (l1 ++ l2)%list summary_list data_store
    = show_loop to_html get_preview_info l2
        (fst (show_loop to_html get_preview_info l1 summary_list data_store))
        (snd (show_loop to_html get_preview_info l1 summary_list data_store)).
Proof.
  induction l1 as [|[name val] l1 IH]; intros sl ds; [reflexivity|].
  rewrite <- app_comm_cons. cbn [show_loop].
  destruct (skipped name val); apply IH.
Qed.

Lemma show_loop_summary (l : list (string * value)) :
  forall summary_list data_store,
    fst (show_loop to_html get_preview_info l summary_list data_store)
    = (summary_list ++ fst (show_loop to_html get_preview_info l [] []))%list.
Proof.
  induction l as [|[name val] l IH]; intros sl ds; cbn [show_loop].
  - cbn [fst]. now rewrite app_nil_r.
  - destruct (skipped name val); [apply IH|].
    rewrite IH. rewrite (IH ([] ++ _)%list). cbn [List.app]. now rewrite <- app_assoc.
Qed.

Lemma show_loop_store (l : list (string * value)) :
  forall summary_list data_store name,
    dict_get (snd (show_loop to_html get_preview_info l summary_list data_store)) name
    = match last_shown name l with
      | Some val => Some (content_html to_html name val)
      | None => dict_get data_store name
      end.
Proof.
  induction l as [|[name' val] l IH]; intros sl ds name; cbn [show_loop last_shown];
    [reflexivity|].
  destruct (skipped name' val) eqn:Hs.
  - rewrite IH. destruct (last_shown name l); [reflexivity|].
    now rewrite andb_false_r.
  - rewrite IH. destruct (last_shown name l); [reflexivity|].
    rewrite dict_get_dict_set, andb_true_r.
    destruct (String.eqb name' name) eqn:E; [|reflexivity].
    apply String.eqb_eq in E. now subst.
Qed.

End ShowFacts.

(** C2.  When formatting the value bound to [name] raises with reason [e],
    [show] stores for [name] the error box, whose text holds [name] and
    [e], and appends the value's summary entry at its place in the list.
    Every other name gets the fragment it gets when the failing value is
    left out of the snapshot, and also when any other value stands in its
    place; the summary entries before and after are those of the values
    before and after. *)
Theorem show_isolates_failure :
  forall (F : PyFloat) (to_html : option string -> frame -> result string)
         (get_preview_info : value -> string)
         (pre post : list (string * value)) (name : string) (val : value) (e : string),
    skipped name val = false ->
    format_value to_html val = Raise e ->
    ~ In name (map fst post) ->
    let shown := show to_html get_preview_info (pre ++ (name, val) :: post)%list in
    dict_get (snd shown) name
    = Some ("<div class='error-box'>Error processing variable '" ++ name ++ "': "
              ++ e ++ "</div>")
    /\ fst shown
       = (fst (show to_html get_preview_info pre)
            ++ [Summary name (type_name val) (get_preview_info val)]
            ++ fst (show to_html get_preview_info post))%list
    /\ (forall other,
          other <> name ->
          dict_get (snd shown) other
          = dict_get (snd (show to_html get_preview_info (pre ++ post)%list)) other)
    /\ (forall other val',
          other <> name ->
          dict_get (snd shown) other
          = dict_get (snd (show to_html get_preview_info
                                (pre ++ (name, val') :: post)%list)) other).
Proof.
  intros F to_html preview pre post name val e Hs Hraise Hfresh shown.
  subst shown. unfold show. split; [|split; [|split]].
  - rewrite show_loop_store, last_shown_app. cbn [last_shown].
    rewrite (last_shown_absent name post Hfresh), String.eqb_refl, Hs. cbn [andb negb].
    unfold content_html. rewrite Hraise. reflexivity.
  - rewrite show_loop_app, show_loop_summary. f_equal.
    cbn [show_loop]. rewrite Hs, show_loop_summary. reflexivity.
  - intros other Hne. rewrite !show_loop_store.
    now rewrite (last_shown_skip_other name other val pre post Hne).
  - intros other val' Hne. rewrite !show_loop_store.
    rewrite (last_shown_skip_other name other val pre post Hne).
    now rewrite (last_shown_skip_other name other val' pre post Hne).
Qed.

Lemma show_isolates_failure_witness :
  let shown := show (F := IEEEFloat) plain_to_html (fun _ => "-") faulty_snapshot in
  dict_get (snd shown) "probe"
  = Some "<div class='error-box'>Error processing variable 'probe': sensor offline</div>"
  /\ dict_get (snd shown) "label" = Some "<div class='text-box'>ready</div>"
  /\ List.length (fst shown) = 3%nat.
Proof.
  change faulty_snapshot
    with ([("count", VOther (Object "int" false false (Ok "42")))]
            ++ ("probe", unprintable) :: [("label", VStr "ready")])%list.
  pose proof (show_isolates_failure IEEEFloat plain_to_html (fun _ => "-")
                [("count", VOther (Object "int" false false (Ok "42")))]
                [("label", VStr "ready")] "probe" unprintable "sensor offline"
                eq_refl eq_refl) as H.
  cbv zeta in *.
  destruct H as (Hbox & Hsummary & Hother & _).
  - cbn. intros [H|[]]. discriminate.
  - split; [exact Hbox|]. split.
    + rewrite (Hother "label") by discriminate. reflexivity.
    + rewrite Hsummary. reflexivity.
Defined.

(* ================================================================= *)
(** ** The heatmap: which cells are coloured *)

Section HeatmapFacts.
Variable parseFloat : string -> spec_float.



End HeatmapFacts.

(* ================================================================= *)
(** ** The heatmap: the colours of the extremes *)

















(* ================================================================= *)
(** * Further properties of the pipeline *)

(** ** The sidebar list and the content store of [show] *)

Lemma dict_get_in {V : Type} (d : list (string * V)) (k : string) :
  dict_get d k <> None <-> In k (map fst d).
Proof.
  induction d as [|[k' v'] d IH]; simpl.
  - split; [congruence | tauto].
  - destruct (String.eqb_spec k' k) as [E | N].
    + split; [auto | discriminate].
    + rewrite IH. split; [auto | intros [E | H]; [congruence | exact H]].
Qed.

Lemma dict_set_keys_in {V : Type} (d : list (string * V)) (k : string) (v : V)
      (k' : string) :
  In k' (map fst (dict_set d k v)) <-> k' = k \/ In k' (map fst d).
Proof.
  induction d as [|[k0 v0] d IH]; simpl.
  - intuition congruence.
  - destruct (String.eqb_spec k0 k) as [E | N]; simpl.
    + subst k0. intuition congruence.
    + rewrite IH. intuition congruence.
Qed.

Lemma dict_set_keys_nodup {V : Type} (d : list (string * V)) (k : string) (v : V) :
  NoDup (map fst d) -> NoDup (map fst (dict_set d k v)).
Proof.
  induction d as [|[k0 v0] d IH]; simpl; intros H.
  - constructor; [intros [] | constructor].
  - inversion H as [|x l Hnotin Hrest]; subst.
    destruct (String.eqb_spec k0 k) as [E | N]; simpl.
    + subst k0. now constructor.
    + constructor; [|now apply IH].
      rewrite dict_set_keys_in. intros [E | Hin]; [congruence | contradiction].
Qed.

Lemma skipped_false_name (name : string) (val : value) :
  skipped name val = false ->
  String.prefix "_" name = false /\ ~ In name reserved_names.
Proof.
  unfold skipped. intros H.
  apply orb_false_iff in H as [H Hres].
  apply orb_false_iff in H as [H _].
  apply orb_false_iff in H as [H _].
  split; [exact H|].
  intros Hin. apply not_true_iff_false in Hres. apply Hres.
  apply existsb_exists. exists name. split; [exact Hin | apply String.eqb_refl].
Qed.

Lemma shown_vars_names (name : string) (local_vars : list (string * value)) :
  In name (map fst (shown_vars local_vars)) ->
  String.prefix "_" name = false /\ ~ In name reserved_names.
Proof.
  intros Hin. apply in_map_iff in Hin as ([name' val] & E & Hin).
  simpl in E. subst name'. apply filter_In in Hin as [_ Hs].
  apply (skipped_false_name name val). simpl in Hs.
  now destruct (skipped name val).
Qed.

Section ShowStoreFacts.
Context {F : PyFloat}.
Variable to_html : option string -> frame -> result string.
Variable get_preview_info : value -> string.

(** The sidebar entry [show] appends for one pair of the snapshot. *)
Let entry (kv : string * value) : summary :=
  Summary (fst kv) (type_name (snd kv)) (get_preview_info (snd kv)).

Lemma show_loop_entries (l : list (string * value)) :
  forall summary_list data_store,
    fst (show_loop to_html get_preview_info l summary_list data_store)
    = (summary_list ++ map entry (shown_vars l))%list.
Proof.
  induction l as [|[name val] l IH]; intros sl ds; cbn [show_loop shown_vars filter].
  - cbn [map]. now rewrite app_nil_r.
  - cbn [fst snd]. destruct (skipped name val); cbn [negb].
    + apply IH.
    + rewrite IH, <- app_assoc. reflexivity.
Qed.

Lemma show_loop_keys (l : list (string * value)) :
  forall summary_list data_store name,
    In name (map fst (snd (show_loop to_html get_preview_info l summary_list data_store)))
    <-> In name (map fst data_store) \/ In name (map fst (shown_vars l)).
Proof.
  induction l as [|[name' val] l IH]; intros sl ds name; cbn [show_loop shown_vars filter].
  - cbn [snd map]. simpl. tauto.
  - cbn [fst snd]. destruct (skipped name' val); cbn [negb].
    + apply IH.
    + rewrite IH, dict_set_keys_in. cbn [map fst]. simpl. intuition congruence.
Qed.

Lemma show_loop_nodup (l : list (string * value)) :
  forall summary_list data_store,
    NoDup (map fst data_store) ->
    NoDup (map fst (snd (show_loop to_html get_preview_info l summary_list data_store))).
Proof.
  induction l as [|[name val] l IH]; intros sl ds H; cbn [show_loop].
  - exact H.
  - destruct (skipped name val); apply IH; [exact H|].
    now apply dict_set_keys_nodup.
Qed.

Lemma entry_ids (l : list (string * value)) : map summary_id (map entry l) = map fst l.
Proof. rewrite map_map. reflexivity. Qed.
End ShowStoreFacts.

(** X1.  The two arguments [show] hands to [generate_html] agree.  The
    sidebar list holds one entry for each pair of the snapshot that is not
    skipped, in the snapshot's order, with the name and the type name of
    the value; the content store has no key twice; a name is listed in the
    sidebar exactly when the store holds a fragment for it, so the page
    never looks up a missing fragment; and no listed name starts with an
    underscore or is one of the reserved names. *)
Theorem show_sidebar_matches_store :
  forall (F : PyFloat) (to_html : option string -> frame -> result string)
         (get_preview_info : value -> string)
         (local_vars : list (string * value)),
    let shown := show to_html get_preview_info local_vars in
    fst shown
    = map (fun kv => Summary (fst kv) (type_name (snd kv)) (get_preview_info (snd kv)))
          (shown_vars local_vars)
    /\ NoDup (map fst (snd shown))
    /\ (forall name,
          In name (map summary_id (fst shown)) <-> dict_get (snd shown) name <> None)
    /\ (forall name,
          In name (map summary_id (fst shown)) ->
          String.prefix "_" name = false /\ ~ In name reserved_names).
Proof.
  intros F to_html preview l shown. subst shown. unfold show.
  rewrite show_loop_entries. cbn [List.app].
  split; [reflexivity|].
  split; [apply show_loop_nodup; constructor|].
  split; intros name.
  - rewrite entry_ids, dict_get_in, show_loop_keys. simpl. tauto.
  - rewrite entry_ids. apply shown_vars_names.
Qed.

(* ================================================================= *)
(** ** Exceptions inside the tree renderer *)

Section TreeLoopFailure.
Variable A : Type.
Variable item_html : Z -> A -> result string.

(** The loop raises what the first failing entry raises, when the budget
    test still passes at that entry. *)
Lemma tree_loop_raise (total_len : Z) (pre post : list A) (x : A)
      (items : list string) (e : string) :
  forall count current_html_len html_str,
    rendered_from item_html count pre items ->
    within_budget current_html_len items ->
    current_html_len + sum_len items <= TARGET_BYTES_PER_VAR ->
    item_html (count + Z.of_nat (List.length pre)) x = Raise e ->
    tree_loop item_html total_len (pre ++ x :: post)%list count current_html_len html_str
    = Raise e.
Proof.
  intros count cur html Hpre Hbudget Hle Hx.
  rewrite (tree_loop_run _ item_html total_len pre (x :: post) items count cur html
             Hpre Hbudget).
  cbn [tree_loop].
  replace (cur + sum_len items >? TARGET_BYTES_PER_VAR) with false
    by (symmetry; rewrite Z.gtb_ltb; apply Z.ltb_ge; exact Hle).
  rewrite Hx. reflexivity.
Qed.
End TreeLoopFailure.

Section RendererFailure.
Context {F : PyFloat}.
Variable to_html : option string -> frame -> result string.

Lemma render_recursive_html_raise (data : value) (level : Z)
      (pre post : list (string * value)) (x : string * value)
      (items : list string) (e : string) :
  is_container data = true ->
  py_items data = (pre ++ x :: post)%list ->
  Forall2 (fun kv item => entry_of to_html level kv = Ok item) pre items ->
  within_budget 0 items ->
  sum_len items <= TARGET_BYTES_PER_VAR ->
  entry_of to_html level x = Raise e ->
  render_recursive_html to_html data level = Raise e.
Proof.
  intros Hc Hitems Hpre Hbudget Hle Hx.
  rewrite (render_recursive_html_items to_html data level Hc), Hitems. unfold render_tree.
  rewrite (tree_loop_raise _ (fun _ kv => entry_of to_html level kv) _ pre post x items e
             0 0 ul_open (rendered_from_Forall2 _ _ _ _ Hpre 0) Hbudget);
    [reflexivity | lia | exact Hx].
Qed.

(** The entry of a child container raises what the rendering of the child
    raises. *)
Lemma entry_of_container_raise (data : value) (level : Z) (key e : string) :
  is_container data = true ->
  render_recursive_html to_html data (level + 1) = Raise e ->
  entry_of to_html level (key, data) = Raise e.
Proof.
  intros Hc Hr. unfold entry_of, entry_html. cbn [fst snd].
  destruct data; try discriminate Hc; rewrite Hr; reflexivity.
Qed.

Lemma render_single_raise (val : value) (level : Z) (e : string) :
  entry_of to_html level ("0", val) = Raise e ->
  render_recursive_html to_html (VList [val]) level = Raise e.
Proof.
  intros Hx.
  apply (render_recursive_html_raise (VList [val]) level [] [] ("0", val) [] e);
    [reflexivity | reflexivity | constructor | exact I | | exact Hx].
  unfold TARGET_BYTES_PER_VAR. cbn [sum_len]. lia.
Qed.

Lemma render_nest_raise (depth : nat) :
  forall val level e,
    entry_of to_html (level + Z.of_nat depth) ("0", val) = Raise e ->
    render_recursive_html to_html (nest depth val) level = Raise e.
Proof.
  induction depth as [|depth IH]; intros val level e Hx.
  - change (Z.of_nat 0) with 0 in Hx. rewrite Z.add_0_r in Hx.
    now apply render_single_raise.
  - cbn [nest]. apply render_single_raise.
    apply entry_of_container_raise; [now destruct depth|].
    apply IH. now replace (level + 1 + Z.of_nat depth) with (level + Z.of_nat (S depth)) by lia.
Qed.

Lemma entry_of_unprintable (o : object) (level : Z) (key e : string) :
  obj_str o = Raise e -> entry_of to_html level (key, VOther o) = Raise e.
Proof.
  intros H. unfold entry_of, entry_html. cbn [fst snd]. rewrite H. reflexivity.
Qed.

Lemma format_array_zero_dim (a : ndarray) :
  shape a = [] ->
  format_array to_html a
  = Raise "too many indices for array: array is 0-dimensional, but 1 were indexed".
Proof.
  intros H. unfold format_array, ndim. rewrite H. reflexivity.
Qed.

Lemma entry_of_zero_dim (a : ndarray) (level : Z) (key : string) :
  shape a = [] ->
  entry_of to_html level (key, VArray a)
  = Raise "too many indices for array: array is 0-dimensional, but 1 were indexed".
Proof.
  intros H. unfold entry_of, entry_html, array_entry. cbn [fst snd].
  rewrite (format_array_zero_dim a H). reflexivity.
Qed.
End RendererFailure.

(** X2.  An exception inside the tree renderer is not caught there.  When
    the entries before [x] render within the budget and the loop body
    raises on [x], the whole call raises the same exception and gives no
    markup, whatever follows [x]; and the entry of an enclosing container
    raises it again, so the exception travels up through every level. *)
Theorem render_failure_propagates :
  forall (F : PyFloat) (to_html : option string -> frame -> result string)
         (data : value) (level : Z)
         (pre post : list (string * value)) (x : string * value)
         (items : list string) (e : string),
    is_container data = true ->
    py_items data = (pre ++ x :: post)%list ->
    Forall2 (fun kv item => entry_of to_html level kv = Ok item) pre items ->
    within_budget 0 items ->
    sum_len items <= TARGET_BYTES_PER_VAR ->
    entry_of to_html level x = Raise e ->
    render_recursive_html to_html data level = Raise e
    /\ (forall key, entry_of to_html (level - 1) (key, data) = Raise e)
    /\ (forall key, render_recursive_html to_html (VDict [(key, data)]) (level - 1) = Raise e).
Proof.
  intros F to_html data level pre post x items e Hc Hitems Hpre Hbudget Hle Hx.
  assert (Hr : render_recursive_html to_html data level = Raise e)
    by (eapply render_recursive_html_raise; eassumption).
  assert (Hup : forall key, entry_of to_html (level - 1) (key, data) = Raise e).
  { intros key. apply entry_of_container_raise; [exact Hc|].
    now replace (level - 1 + 1) with level by lia. }
  split; [exact Hr|]. split; [exact Hup|].
  intros key.
  apply (render_recursive_html_raise to_html (VDict [(key, data)]) (level - 1)
           [] [] (key, data) [] e);
    [reflexivity | reflexivity | constructor | exact I | | apply Hup].
  unfold TARGET_BYTES_PER_VAR. cbn [sum_len]. lia.
Qed.

Lemma render_failure_propagates_witness :
  render_recursive_html (F := IEEEFloat) plain_to_html
    (VList [VStr "a"; unprintable; VStr "tail"]) 1
  = Raise "sensor offline"
  /\ render_recursive_html (F := IEEEFloat) plain_to_html
       (VDict [("readings", VList [VStr "a"; unprintable; VStr "tail"])]) (1 - 1)
     = Raise "sensor offline".
Proof.
  pose proof (render_failure_propagates IEEEFloat plain_to_html
                (VList [VStr "a"; unprintable; VStr "tail"]) 1
                [("0", VStr "a")] [("2", VStr "tail")] ("1", unprintable)
                [li (row_item "0" "a")] "sensor offline"
                eq_refl eq_refl) as H.
  destruct H as (H1 & _ & H3).
  - constructor; [reflexivity | constructor].
  - cbn [within_budget]. unfold TARGET_BYTES_PER_VAR. lia.
  - vm_compute. discriminate.
  - reflexivity.
  - split; [exact H1 | exact (H3 "readings")].
Defined.

(** X3.  One value that cannot be printed, however deep inside nested
    lists, replaces the whole fragment of the variable by the error box
    carrying its exception: the try block of [show] is the only handler.
    The variable keeps its sidebar entry. *)
Theorem nested_failure_replaces_fragment :
  forall (F : PyFloat) (to_html : option string -> frame -> result string)
         (get_preview_info : value -> string)
         (depth : nat) (o : object) (e name : string),
    obj_str o = Raise e ->
    skipped name (nest depth (VOther o)) = false ->
    format_value to_html (nest depth (VOther o)) = Raise e
    /\ content_html to_html name (nest depth (VOther o)) = error_box name e
    /\ show to_html get_preview_info [(name, nest depth (VOther o))]
       = ([Summary name "list" (get_preview_info (nest depth (VOther o)))],
          [(name, error_box name e)]).
Proof.
  intros F to_html preview depth o e name Ho Hs.
  assert (Hf : format_value to_html (nest depth (VOther o)) = Raise e).
  { assert (Hr : render_recursive_html to_html (nest depth (VOther o)) 0 = Raise e)
      by (apply render_nest_raise, entry_of_unprintable, Ho).
    destruct depth; cbn [nest format_value] in *; rewrite Hr; reflexivity. }
  assert (Hc : content_html to_html name (nest depth (VOther o)) = error_box name e)
    by (unfold content_html; now rewrite Hf).
  split; [exact Hf|]. split; [exact Hc|].
  unfold show. cbn [show_loop]. rewrite Hs, Hc.
  destruct depth; reflexivity.
Qed.

Lemma nested_failure_replaces_fragment_witness :
  content_html (F := IEEEFloat) plain_to_html "probe"
    (nest 4 (VOther (Object "Sensor" false false (Raise "sensor offline"))))
  = "<div class='error-box'>Error processing variable 'probe': sensor offline</div>".
Proof.
  exact (proj1 (proj2 (nested_failure_replaces_fragment IEEEFloat plain_to_html
                         (fun _ => "-") 4
                         (Object "Sensor" false false (Raise "sensor offline"))
                         "sensor offline" "probe" eq_refl eq_refl))).
Defined.

(** X4.  A 0-dimensional array cannot be formatted: [format_array] takes
    the rank <= 2 branch and raises on [arr[:10]] before it renders
    anything.  At the top level [show] stores the error box; inside a
    container the entry raises, so the container is lost with it. *)
Theorem zero_dimensional_array_fails :
  forall (F : PyFloat) (to_html : option string -> frame -> result string)
         (a : ndarray) (name : string),
    shape a = [] ->
    exists e,
      format_array to_html a = Raise e
      /\ content_html to_html name (VArray a) = error_box name e
      /\ (forall level key, entry_of to_html level (key, VArray a) = Raise e)
      /\ (forall depth, content_html to_html name (nest depth (VArray a)) = error_box name e).
Proof.
  intros F to_html a name H.
  exists "too many indices for array: array is 0-dimensional, but 1 were indexed".
  split; [now apply format_array_zero_dim|].
  split; [unfold content_html, format_value; now rewrite format_array_zero_dim|].
  split; [intros level key; now apply entry_of_zero_dim|].
  intros depth. unfold content_html.
  assert (Hr : render_recursive_html to_html (nest depth (VArray a)) 0
               = Raise "too many indices for array: array is 0-dimensional, but 1 were indexed")
    by (apply render_nest_raise, entry_of_zero_dim, H).
  destruct depth; cbn [nest format_value] in *; rewrite Hr; reflexivity.
Qed.

Lemma zero_dimensional_array_fails_witness :
  exists e,
    format_array (F := IEEEFloat) plain_to_html (NDArray [] ["42"]) = Raise e
    /\ content_html (F := IEEEFloat) plain_to_html "answer" (VArray (NDArray [] ["42"]))
       = error_box "answer" e.
Proof.
  destruct (zero_dimensional_array_fails IEEEFloat plain_to_html (NDArray [] ["42"])
              "answer" eq_refl) as (e & H1 & H2 & _).
  exists e. split; [exact H1 | exact H2].
Defined.

(* ================================================================= *)
(** ** The slices of an array of rank above two *)

Lemma slice_arrays_app (d1 d2 : list (string * slice)) :
  slice_arrays (d1 ++ d2)%list = (slice_arrays d1 ++ slice_arrays d2)%list.
Proof. unfold slice_arrays. apply flat_map_app. Qed.

Lemma slice_arrays_entries (a : ndarray) (start n : nat) :
  slice_arrays (slice_entries a start n) = map (subarray a) (seq start n).
Proof.
  unfold slice_arrays, slice_entries.
  induction (seq start n) as [|i l IH]; cbn [map flat_map snd List.app];
    [reflexivity | now rewrite IH].
Qed.

Lemma firstn_skipn_add {A : Type} (l : list A) (n m : nat) :
  firstn (n + m) l = (firstn n l ++ firstn m (skipn n l))%list.
Proof.
  revert l. induction n as [|n IH]; intros l; [reflexivity|].
  destruct l as [|x l]; cbn [Nat.add firstn skipn].
  - now rewrite firstn_nil.
  - rewrite <- app_comm_cons. now rewrite IH.
Qed.

(** The cells of the first [n] entries along the first axis, one entry
    after the other. *)
Lemma concat_subarrays (a : ndarray) (n : nat) :
  List.concat (map (fun i => data (subarray a i)) (seq 0 n)) = firstn (n * stride a) (data a).
Proof.
  induction n as [|n IH].
  - reflexivity.
  - rewrite seq_S, map_app, concat_app, IH. cbn [map List.concat Nat.add subarray data].
    rewrite app_nil_r.
    replace (S n * stride a)%nat with (n * stride a + stride a)%nat by lia.
    now rewrite firstn_skipn_add.
Qed.

Lemma well_shaped_size (a : ndarray) :
  shape a <> [] -> well_shaped a -> List.length (data a) = (shape0 a * stride a)%nat.
Proof.
  unfold well_shaped, shape0, stride. destruct (shape a); [congruence | auto].
Qed.

Lemma well_shaped_subarray (a : ndarray) (i : nat) :
  shape a <> [] -> well_shaped a -> (i < shape0 a)%nat ->
  shape (subarray a i) = tl (shape a) /\ well_shaped (subarray a i).
Proof.
  intros Hne Hw Hi. split; [reflexivity|].
  pose proof (well_shaped_size a Hne Hw) as Hsize.
  unfold well_shaped, subarray. cbn [data shape].
  fold (stride a). rewrite length_firstn, length_skipn.
  nia.
Qed.

(** X5.  On a well-shaped array of rank above two, [format_array] hands
    out the array entry by entry: the sub-arrays of its dict, read in
    order, hold the cells of the first [min(shape[0], 50)] entries exactly
    once and in the array's order; each sub-array has the array's shape
    without its first axis and is well-shaped again.  With at most 50
    entries along the first axis no cell is left out. *)
Theorem format_array_slices_partition :
  forall (F : PyFloat) (to_html : option string -> frame -> result string) (a : ndarray),
    (2 < ndim a)%nat ->
    well_shaped a ->
    exists d,
      format_array to_html a = Ok (FormattedDict d)
      /\ List.concat (map data (slice_arrays d))
         = firstn (Nat.min (shape0 a) 50 * stride a) (data a)
      /\ Forall (fun sub => shape sub = tl (shape a) /\ well_shaped sub) (slice_arrays d)
      /\ List.length (slice_arrays d) = Nat.min (shape0 a) 50
      /\ ((shape0 a <= 50)%nat -> List.concat (map data (slice_arrays d)) = data a).
Proof.
  intros F to_html a Hrank Hw.
  assert (Hne : shape a <> []) by (unfold ndim in Hrank; destruct (shape a); simpl in *; [lia | discriminate]).
  eexists. split; [apply format_array_rank_above_two; exact Hrank|].
  assert (Harr : slice_arrays
                   (slice_entries a 0 (Nat.min (shape0 a) 50)
                    ++ (if (50 <? shape0 a)%nat
                        then [("...", SliceNote ("And " ++ str_int (Z.of_nat (shape0 a) - 50)
                                                        ++ " more slices...")%string)]
                        else []))%list
                 = map (subarray a) (seq 0 (Nat.min (shape0 a) 50))).
  { rewrite slice_arrays_app, slice_arrays_entries.
    destruct (50 <? shape0 a)%nat; cbn; now rewrite app_nil_r. }
  rewrite Harr.
  assert (Hcat : List.concat (map data (map (subarray a) (seq 0 (Nat.min (shape0 a) 50))))
                 = firstn (Nat.min (shape0 a) 50 * stride a) (data a))
    by (rewrite map_map; apply concat_subarrays).
  split; [exact Hcat|].
  split.
  { apply Forall_forall. intros sub Hin.
    apply in_map_iff in Hin as (i & <- & Hi). apply in_seq in Hi.
    apply well_shaped_subarray; [exact Hne | exact Hw | lia]. }
  split; [now rewrite length_map, length_seq|].
  intros Hle. rewrite Hcat, Nat.min_l by exact Hle.
  rewrite <- (well_shaped_size a Hne Hw). apply firstn_all.
Qed.

Lemma format_array_slices_partition_witness :
  exists d,
    format_array (F := IEEEFloat) plain_to_html (NDArray [2; 1; 2]%nat ["a"; "b"; "c"; "d"])
    = Ok (FormattedDict d)
    /\ List.concat (map data (slice_arrays d)) = ["a"; "b"; "c"; "d"].
Proof.
  destruct (format_array_slices_partition IEEEFloat plain_to_html
              (NDArray [2; 1; 2]%nat ["a"; "b"; "c"; "d"]))
    as (d & Hd & _ & _ & _ & Hall).
  - vm_compute. lia.
  - reflexivity.
  - exists d. split; [exact Hd|]. apply Hall. vm_compute. lia.
Defined.

(* ================================================================= *)
(** ** Escaped text and the string preview *)

Lemma escape_char_plain (c : ascii) :
  is_markup_char c = false -> escape_char c = String c EmptyString.
Proof.
  unfold is_markup_char, escape_char. intros H.
  repeat (apply orb_false_iff in H as [H ?]).
  repeat match goal with E : Ascii.eqb _ _ = false |- _ => rewrite E; clear E end.
  reflexivity.
Qed.

Lemma escape_char_cases (c : ascii) :
  (is_markup_char c = false /\ escape_char c = String c EmptyString)
  \/ (is_markup_char c = true
      /\ (escape_char c = "&amp;" \/ escape_char c = "&lt;" \/ escape_char c = "&gt;"
          \/ escape_char c = "&quot;" \/ escape_char c = "&#x27;")).
Proof.
  destruct (is_markup_char c) eqn:E.
  - right. split; [reflexivity|]. unfold escape_char.
    repeat match goal with |- context [if ?b then _ else _] => destruct b eqn:?; auto 6 end.
    unfold is_markup_char in E.
    repeat match goal with H : Ascii.eqb _ _ = false |- _ => rewrite H in E; clear H end.
    discriminate.
  - left. split; [reflexivity | now apply escape_char_plain].
Qed.

Lemma string_forallb_append (p : ascii -> bool) (s1 s2 : string) :
  string_forallb p (s1 ++ s2) = string_forallb p s1 && string_forallb p s2.
Proof.
  induction s1 as [|c s1 IH]; simpl; [reflexivity | now rewrite IH, andb_assoc].
Qed.

Lemma escape_char_safe (c : ascii) :
  string_forallb (fun x => negb (is_raw_markup x)) (escape_char c) = true.
Proof.
  destruct (escape_char_cases c) as [[Hc E] | [_ [E | [E | [E | [E | E]]]]]];
    rewrite E; try reflexivity.
  cbn [string_forallb]. unfold is_raw_markup. now rewrite Hc.
Qed.

Lemma length_escape_char_le (c : ascii) : (String.length (escape_char c) <= 6)%nat.
Proof.
  destruct (escape_char_cases c) as [[_ E] | [_ [E | [E | [E | [E | E]]]]]];
    rewrite E; simpl; lia.
Qed.

Lemma html_escape_inj (s1 : string) :
  forall s2, html_escape s1 = html_escape s2 -> s1 = s2.
Proof.
  induction s1 as [|c1 s1 IH]; intros [|c2 s2] H; cbn [html_escape] in H.
  - reflexivity.
  - exfalso. pose proof (length_escape_char c2) as Hl.
    apply (f_equal String.length) in H. rewrite length_append in H. simpl in H. lia.
  - exfalso. pose proof (length_escape_char c1) as Hl.
    apply (f_equal String.length) in H. rewrite length_append in H. simpl in H. lia.
  - assert (Hc : c1 = c2 /\ html_escape s1 = html_escape s2).
    { destruct (escape_char_cases c1) as [[M1 E1] | [M1 E1]];
        destruct (escape_char_cases c2) as [[M2 E2] | [M2 E2]].
      - rewrite E1, E2 in H. simpl in H. injection H as -> H. now split.
      - exfalso. rewrite E1 in H.
        assert (Hamp : c1 = "&"%char)
          by (destruct E2 as [E | [E | [E | [E | E]]]]; rewrite E in H; simpl in H;
              now injection H).
        subst c1. discriminate M1.
      - exfalso. rewrite E2 in H.
        assert (Hamp : c2 = "&"%char)
          by (destruct E1 as [E | [E | [E | [E | E]]]]; rewrite E in H; simpl in H;
              now injection H).
        subst c2. discriminate M2.
      - assert (Hsame : escape_char c1 = escape_char c2
                        /\ html_escape s1 = html_escape s2).
        { destruct E1 as [E1 | [E1 | [E1 | [E1 | E1]]]];
            destruct E2 as [E2 | [E2 | [E2 | [E2 | E2]]]];
            rewrite E1, E2 in H |- *; simpl in H; try discriminate H;
            (split; [reflexivity|]); now repeat injection H as H. }
        destruct Hsame as [Hesc Hrest]. split; [|exact Hrest].
        clear - Hesc M1 M2. unfold escape_char, is_markup_char in *.
        destruct (Ascii.eqb_spec c1 "&"), (Ascii.eqb_spec c2 "&"),
                 (Ascii.eqb_spec c1 "<"), (Ascii.eqb_spec c2 "<"),
                 (Ascii.eqb_spec c1 ">"), (Ascii.eqb_spec c2 ">"),
                 (Ascii.eqb_spec c1 (ascii_of_nat 34)), (Ascii.eqb_spec c2 (ascii_of_nat 34)),
                 (Ascii.eqb_spec c1 "'"), (Ascii.eqb_spec c2 "'");
          try congruence; try discriminate Hesc; try discriminate M1; try discriminate M2. }
    destruct Hc as [-> Hrest]. f_equal. now apply IH.
Qed.

(** X6.  The text [html.escape] gives to the text box and to the rows of
    the tree carries no markup of its own: it holds no [<], [>] or quote
    character, a text without special characters is left as it is, the
    escaped text is at most six times as long, and two different texts
    never escape to the same text. *)
Theorem html_escape_safe :
  (forall s, string_forallb (fun c => negb (is_raw_markup c)) (html_escape s) = true)
  /\ (forall s, string_forallb (fun c => negb (is_markup_char c)) s = true ->
                html_escape s = s)
  /\ (forall s, len s <= len (html_escape s) <= 6 * len s)
  /\ (forall s1 s2, html_escape s1 = html_escape s2 -> s1 = s2).
Proof.
  split; [|split; [|split]].
  - induction s as [|c s IH]; [reflexivity|].
    cbn [html_escape]. now rewrite string_forallb_append, escape_char_safe, IH.
  - induction s as [|c s IH]; [reflexivity|].
    cbn [string_forallb html_escape]. intros H.
    apply andb_true_iff in H as [Hc Hs].
    rewrite escape_char_plain by (now apply negb_true_iff). now rewrite IH.
  - intros s. split; [apply len_html_escape|].
    unfold len. induction s as [|c s IH]; [simpl; lia|].
    cbn [html_escape String.length]. rewrite length_append.
    pose proof (length_escape_char_le c). lia.
  - intros s1 s2. apply html_escape_inj.
Qed.

Lemma length_substring_0 (n : nat) :
  forall s, String.length (String.substring 0 n s) = Nat.min n (String.length s).
Proof.
  induction n as [|n IH]; intros [|c s]; cbn [String.substring String.length Nat.min];
    try reflexivity.
  now rewrite IH.
Qed.

Lemma prefix_substring_0 (n : nat) :
  forall s, String.prefix (String.substring 0 n s) s = true.
Proof.
  induction n as [|n IH]; intros [|c s]; cbn [String.substring String.prefix];
    try reflexivity.
  rewrite IH. now destruct (ascii_dec c c).
Qed.

(** X7.  The sidebar preview of a string never exceeds 25 characters: a
    string of at most 20 characters is shown whole between double quotes,
    a longer one is cut to its first 20 characters followed by three dots,
    which makes exactly 25 characters.  The text is not escaped. *)
Theorem preview_of_str_bounded :
  forall val : string,
    len (preview_of_str val) <= 25
    /\ (len val <= 20 -> preview_of_str val = dq ++ val ++ dq)
    /\ (20 < len val ->
        len (preview_of_str val) = 25
        /\ exists cut,
            preview_of_str val = dq ++ cut ++ "..." ++ dq
            /\ len cut = 20 /\ String.prefix cut val = true).
Proof.
  intros val. unfold preview_of_str.
  destruct (len val >? 20) eqn:E; rewrite Z.gtb_ltb in E.
  - apply Z.ltb_lt in E.
    assert (Hcut : len (String.substring 0 20 val) = 20).
    { unfold len in *. rewrite length_substring_0. lia. }
    assert (Hlen : len (dq ++ (String.substring 0 20 val ++ "...") ++ dq) = 25).
    { rewrite !len_append, Hcut. reflexivity. }
    split; [lia|]. split; [lia|]. intros _. split; [exact Hlen|].
    exists (String.substring 0 20 val). rewrite append_assoc.
    split; [reflexivity|]. split; [exact Hcut | apply prefix_substring_0].
  - apply Z.ltb_ge in E.
    split; [|split; [reflexivity | lia]].
    rewrite !len_append. change (len dq) with 1. lia.
Qed.

(* ================================================================= *)
(** ** The sort of the page's engine *)

Section JsSort.
Variable A : Type.
Variable compareFn : A -> A -> Z.

Lemma js_insert_perm (x : A) (l : list A) : Permutation (js_insert compareFn x l) (x :: l).
Proof.
  induction l as [|y l IH]; cbn [js_insert]; [apply Permutation_refl|].
  destruct (compareFn x y <? 0); [apply Permutation_refl|].
  apply perm_trans with (y :: x :: l); [now apply perm_skip | apply perm_swap].
Qed.

Lemma js_sort_from_perm (l : list A) :
  forall sorted,
    Permutation (fold_left (fun sorted x => js_insert compareFn x sorted) l sorted)
                (sorted ++ l)%list.
Proof.
  induction l as [|x l IH]; intros sorted; cbn [fold_left].
  - rewrite app_nil_r. apply Permutation_refl.
  - eapply perm_trans; [apply IH|].
    apply perm_trans with ((x :: sorted) ++ l)%list.
    + apply Permutation_app_tail, js_insert_perm.
    + cbn [List.app]. apply Permutation_middle.
Qed.

Lemma js_sort_perm (l : list A) : Permutation (js_sort compareFn l) l.
Proof. apply (js_sort_from_perm l []). Qed.

(** Inserting behind elements none of which compares above [x]. *)
Lemma js_insert_last (x : A) (l : list A) :
  Forall (fun y => 0 <= compareFn x y) l -> js_insert compareFn x l = (l ++ [x])%list.
Proof.
  induction 1 as [|y l Hy Hl IH]; cbn [js_insert List.app]; [reflexivity|].
  replace (compareFn x y <? 0) with false by (symmetry; apply Z.ltb_ge; exact Hy).
  now rewrite IH.
Qed.

(** A list in which no element compares below an earlier one is left as
    it is. *)
Lemma js_sort_from_sorted (l : list A) :
  forall sorted,
    StronglySorted (fun y x => 0 <= compareFn x y) (sorted ++ l)%list ->
    fold_left (fun sorted x => js_insert compareFn x sorted) l sorted = (sorted ++ l)%list.
Proof.
  induction l as [|x l IH]; intros sorted H; cbn [fold_left].
  - now rewrite app_nil_r.
  - assert (Hx : Forall (fun y => 0 <= compareFn x y) sorted).
    { clear IH. induction sorted as [|y sorted IHs]; [constructor|].
      cbn [List.app] in H. inversion H as [|? ? Hs Hy]; subst.
      constructor; [|now apply IHs].
      rewrite Forall_forall in Hy. apply Hy. apply in_or_app. right. now left. }
    rewrite (js_insert_last x sorted Hx).
    rewrite IH; rewrite <- app_assoc; [reflexivity | exact H].
Qed.

Lemma js_sort_sorted_id (l : list A) :
  StronglySorted (fun y x => 0 <= compareFn x y) l -> js_sort compareFn l = l.
Proof. intros H. apply (js_sort_from_sorted l [] H). Qed.

(** With a consistent comparator the result is sorted. *)
Hypothesis compare_trans :
  forall x y z, compareFn x y <= 0 -> compareFn y z <= 0 -> compareFn x z <= 0.
Hypothesis compare_flip : forall x y, 0 <= compareFn x y -> compareFn y x <= 0.

Lemma js_insert_sorted (x : A) (l : list A) :
  StronglySorted (fun a b => compareFn a b <= 0) l ->
  StronglySorted (fun a b => compareFn a b <= 0) (js_insert compareFn x l).
Proof.
  induction 1 as [|y l Hl IH Hy]; cbn [js_insert].
  - constructor; constructor.
  - destruct (compareFn x y <? 0) eqn:E.
    + apply Z.ltb_lt in E. constructor; [now constructor|].
      constructor; [lia|].
      eapply Forall_impl; [|exact Hy]. intros z Hz. cbv beta in Hz.
      apply (compare_trans x y z); [lia | exact Hz].
    + apply Z.ltb_ge in E. constructor; [exact IH|].
      apply (Permutation_Forall (Permutation_sym (js_insert_perm x l))).
      constructor; [now apply compare_flip | exact Hy].
Qed.

Lemma js_sort_from_sorted_result (l : list A) :
  forall sorted,
    StronglySorted (fun a b => compareFn a b <= 0) sorted ->
    StronglySorted (fun a b => compareFn a b <= 0)
                   (fold_left (fun sorted x => js_insert compareFn x sorted) l sorted).
Proof.
  induction l as [|x l IH]; intros sorted H; cbn [fold_left]; [exact H|].
  apply IH, js_insert_sorted, H.
Qed.

Lemma js_sort_sorted (l : list A) :
  StronglySorted (fun a b => compareFn a b <= 0) (js_sort compareFn l).
Proof. apply js_sort_from_sorted_result. constructor. Qed.
End JsSort.

(** Two sorted arrangements of the same elements are equal, when only
    equal elements compare as equal. *)
Lemma sorted_perm_unique (A : Type) (compareFn : A -> A -> Z) (l1 : list A) :
  forall l2,
    (forall x y, In x l1 -> In y l1 -> compareFn x y <= 0 -> compareFn y x <= 0 -> x = y) ->
    StronglySorted (fun a b => compareFn a b <= 0) l1 ->
    StronglySorted (fun a b => compareFn a b <= 0) l2 ->
    Permutation l1 l2 ->
    l1 = l2.
Proof.
  induction l1 as [|x l1 IH]; intros l2 Hanti H1 H2 Hp.
  - apply Permutation_nil in Hp. now subst.
  - destruct l2 as [|y l2]; [apply Permutation_sym, Permutation_nil in Hp; discriminate|].
    inversion H1 as [|? ? Hs1 Hx]; subst. inversion H2 as [|? ? Hs2 Hy]; subst.
    assert (Hxy : x = y).
    { assert (Hyin : In y (x :: l1))
        by (apply (Permutation_in y (Permutation_sym Hp)); now left).
      assert (Hxin : In x (y :: l2)) by (apply (Permutation_in x Hp); now left).
      destruct Hyin as [E | Hyin]; [exact E|].
      destruct Hxin as [E | Hxin]; [now symmetry|].
      rewrite Forall_forall in Hx, Hy.
      apply Hanti; [now left | now right | now apply Hx | now apply Hy]. }
    subst y. f_equal. apply IH; try assumption.
    + intros a b Ha Hb. apply Hanti; now right.
    + now apply Permutation_cons_inv in Hp.
Qed.

(* ================================================================= *)
(** ** Selecting cells *)

Lemma cell_ref_eqb_above (ref y : cell_ref) : ref_lt y ref -> cell_ref_eqb ref y = false.
Proof.
  unfold ref_lt, cell_ref_eqb. intros H.
  destruct (Nat.eqb_spec (rowIndex ref) (rowIndex y)) as [Er | Nr];
    [|now rewrite andb_false_r].
  destruct (Nat.eqb_spec (cellIndex ref) (cellIndex y)) as [Ec | Nc];
    [lia | now rewrite andb_false_r].
Qed.

Lemma add_selected_above (ref : cell_ref) (sel : list cell_ref) :
  Forall (fun y => ref_lt y ref) sel -> add_selected ref sel = (sel ++ [ref])%list.
Proof.
  intros H. unfold add_selected.
  replace (existsb (cell_ref_eqb ref) sel) with false; [reflexivity|].
  symmetry. induction H as [|y sel Hy _ IH]; [reflexivity|].
  cbn [existsb]. now rewrite (cell_ref_eqb_above ref y Hy), IH.
Qed.

Lemma sorted_snoc (A : Type) (R : A -> A -> Prop) (l : list A) (x : A) :
  StronglySorted R l -> Forall (fun y => R y x) l -> StronglySorted R (l ++ [x])%list.
Proof.
  induction 1 as [|y l Hl IH Hy]; intros Hx; cbn [List.app].
  - constructor; constructor.
  - inversion Hx as [|? ? Hyx Hlx]; subst.
    constructor; [now apply IH|].
    apply Forall_app. split; [exact Hy | now constructor].
Qed.

Lemma td_at_true (row : list dom_cell) (j : nat) :
  td_at row j = true <-> exists text, nth_error row j = Some (DomCell TD text).
Proof.
  unfold td_at. destruct (nth_error row j) as [[[|] text]|].
  - split; [discriminate | intros [text' H]; discriminate].
  - split; [now exists text | reflexivity].
  - split; [discriminate | intros [text' H]; discriminate].
Qed.

Lemma is_tag_td (doc : list dom_table) (t i j : nat) :
  is_tag doc TD (CellRef t i j) = true
  <-> exists row, nth_error (table_rows (get_table doc t)) i = Some row
                  /\ td_at row j = true.
Proof.
  unfold is_tag, lookup_cell, td_at. cbn [ref_table rowIndex cellIndex].
  destruct (nth_error (table_rows (get_table doc t)) i) as [row|].
  - split.
    + intros H. exists row. split; [reflexivity|].
      destruct (nth_error row j) as [[[|] text]|]; [discriminate | reflexivity | discriminate].
    + intros (row' & E & H). injection E as <-.
      destruct (nth_error row j) as [[[|] text]|]; [discriminate | reflexivity | discriminate].
  - split; [discriminate | intros (row' & E & _); discriminate].
Qed.

Section SelectLoops.
Variable t : nat.

(** The inner loop of [selectRange] adds the [td] cells of its columns
    behind a selection that lies before them in document order. *)
Lemma select_cols_inv (row : list dom_cell) (r : nat) :
  forall n c sel,
    Forall (fun y => ref_lt y (CellRef t r c)) sel ->
    StronglySorted ref_lt sel ->
    StronglySorted ref_lt (select_cols row t r c n sel)
    /\ Forall (fun y => ref_lt y (CellRef t r (c + n))) (select_cols row t r c n sel)
    /\ forall ref,
        In ref (select_cols row t r c n sel)
        <-> In ref sel
            \/ exists j, ref = CellRef t r j /\ (c <= j < c + n)%nat /\ td_at row j = true.
Proof.
  induction n as [|n IH]; intros c sel Hb Hs; cbn [select_cols].
  - rewrite Nat.add_0_r. split; [exact Hs|]. split; [exact Hb|].
    intros ref. split; [now left | intros [H | (j & _ & Hj & _)]; [exact H | lia]].
  - assert (Hup : forall l, Forall (fun y => ref_lt y (CellRef t r c)) l ->
                            Forall (fun y => ref_lt y (CellRef t r (S c))) l).
    { intros l. apply Forall_impl. intros y. unfold ref_lt.
      cbn [rowIndex cellIndex]. lia. }
    destruct (td_at row c) eqn:Etd.
    + apply td_at_true in Etd as [text Erow]. rewrite Erow.
      rewrite (add_selected_above _ sel Hb).
      destruct (IH (S c) (sel ++ [CellRef t r c])%list) as (H1 & H2 & H3).
      * apply Forall_app. split; [now apply Hup|].
        constructor; [|constructor]. unfold ref_lt. cbn [rowIndex cellIndex]. lia.
      * now apply sorted_snoc.
      * split; [exact H1|]. split; [now replace (c + S n)%nat with (S c + n)%nat by lia|].
        intros ref. rewrite H3, in_app_iff. cbn [In]. split.
        -- intros [[H | [<- | []]] | (j & E & Hj & Htd)].
           ++ now left.
           ++ right. exists c. split; [reflexivity|]. split; [lia|].
              apply td_at_true. now exists text.
           ++ right. exists j. split; [exact E|]. split; [lia | exact Htd].
        -- intros [H | (j & E & Hj & Htd)]; [now left; left|].
           destruct (Nat.eq_dec j c) as [-> | N].
           ++ left. right. left. now symmetry.
           ++ right. exists j. split; [exact E|]. split; [lia | exact Htd].
    + assert (Esel : match nth_error row c with
                     | Some (DomCell TD _) => add_selected (CellRef t r c) sel
                     | _ => sel
                     end = sel).
      { unfold td_at in Etd. destruct (nth_error row c) as [[[|] text]|];
          [reflexivity | discriminate | reflexivity]. }
      rewrite Esel.
      destruct (IH (S c) sel (Hup sel Hb) Hs) as (H1 & H2 & H3).
      split; [exact H1|]. split; [now replace (c + S n)%nat with (S c + n)%nat by lia|].
      intros ref. rewrite H3. split.
      * intros [H | (j & E & Hj & Htd)]; [now left|].
        right. exists j. split; [exact E|]. split; [lia | exact Htd].
      * intros [H | (j & E & Hj & Htd)]; [now left|].
        destruct (Nat.eq_dec j c) as [-> | N]; [congruence|].
        right. exists j. split; [exact E|]. split; [lia | exact Htd].
Qed.

(** The outer loop adds the [td] cells of its rows and columns. *)
Lemma select_rows_inv (table : dom_table) (minCol cols : nat) :
  forall n r sel,
    Forall (fun y => (rowIndex y < r)%nat) sel ->
    StronglySorted ref_lt sel ->
    StronglySorted ref_lt (select_rows table t r n minCol cols sel)
    /\ Forall (fun y => (rowIndex y < r + n)%nat) (select_rows table t r n minCol cols sel)
    /\ forall ref,
        In ref (select_rows table t r n minCol cols sel)
        <-> In ref sel
            \/ exists i j row,
                ref = CellRef t i j /\ (r <= i < r + n)%nat
                /\ nth_error (table_rows table) i = Some row
                /\ (minCol <= j < minCol + cols)%nat /\ td_at row j = true.
Proof.
  induction n as [|n IH]; intros r sel Hb Hs; cbn [select_rows].
  - rewrite Nat.add_0_r. split; [exact Hs|]. split; [exact Hb|].
    intros ref. split; [now left | intros [H | (i & j & row & _ & Hi & _)]; [exact H | lia]].
  - destruct (nth_error (table_rows table) r) as [row|] eqn:Erow.
    + destruct (select_cols_inv row r cols minCol sel) as (C1 & C2 & C3).
      * eapply Forall_impl; [|exact Hb]. intros y Hy. left. exact Hy.
      * exact Hs.
      * destruct (IH (S r) (select_cols row t r minCol cols sel)) as (H1 & H2 & H3).
        -- eapply Forall_impl; [|exact C2]. intros y. unfold ref_lt.
           cbn [rowIndex cellIndex]. lia.
        -- exact C1.
        -- split; [exact H1|].
           split; [now replace (r + S n)%nat with (S r + n)%nat by lia|].
           intros ref. rewrite H3, C3. split.
           ++ intros [[H | (j & E & Hj & Htd)] | (i & j & row' & E & Hi & Hrow & Hj & Htd)].
              ** now left.
              ** right. exists r, j, row. repeat split; try assumption; lia.
              ** right. exists i, j, row'. repeat split; try assumption; lia.
           ++ intros [H | (i & j & row' & E & Hi & Hrow & Hj & Htd)]; [now left; left|].
              destruct (Nat.eq_dec i r) as [-> | N].
              ** left. right. exists j. rewrite Erow in Hrow. injection Hrow as <-.
                 repeat split; try assumption; lia.
              ** right. exists i, j, row'. repeat split; try assumption; lia.
    + destruct (IH (S r) sel) as (H1 & H2 & H3).
      * eapply Forall_impl; [|exact Hb]. intros y. cbv beta. lia.
      * exact Hs.
      * split; [exact H1|].
        split; [now replace (r + S n)%nat with (S r + n)%nat by lia|].
        intros ref. rewrite H3. split.
        -- intros [H | (i & j & row' & E & Hi & Hrow & Hj & Htd)]; [now left|].
           right. exists i, j, row'. repeat split; try assumption; lia.
        -- intros [H | (i & j & row' & E & Hi & Hrow & Hj & Htd)]; [now left|].
           destruct (Nat.eq_dec i r) as [-> | N]; [congruence|].
           right. exists i, j, row'. repeat split; try assumption; lia.
Qed.

(** The loop of the column selection over the body rows. *)
Lemma select_column_inv (table : dom_table) (first colIdx : nat) :
  forall body i sel,
    (forall k, nth_error body k = nth_error (tbody table) (i + k)) ->
    Forall (fun y => (rowIndex y < first + i)%nat) sel ->
    StronglySorted ref_lt sel ->
    StronglySorted ref_lt (select_column body t first i colIdx sel)
    /\ forall ref,
        In ref (select_column body t first i colIdx sel)
        <-> In ref sel
            \/ exists k row,
                ref = CellRef t (first + k) colIdx /\ (i <= k)%nat
                /\ nth_error (tbody table) k = Some row /\ td_at row colIdx = true.
Proof.
  induction body as [|r body IH]; intros i sel Hbody Hb Hs; cbn [select_column].
  - split; [exact Hs|]. intros ref. split; [now left|].
    intros [H | (k & row & _ & Hk & Hrow & _)]; [exact H|].
    exfalso. specialize (Hbody (k - i)%nat).
    replace (i + (k - i))%nat with k in Hbody by lia.
    rewrite Hrow in Hbody. now destruct (k - i)%nat.
  - assert (Hr : nth_error (tbody table) i = Some r)
      by (specialize (Hbody 0%nat); rewrite Nat.add_0_r in Hbody; now symmetry).
    assert (Hrest : forall k, nth_error body k = nth_error (tbody table) (S i + k)).
    { intros k. specialize (Hbody (S k)). cbn [nth_error] in Hbody.
      now replace (S i + k)%nat with (i + S k)%nat by lia. }
    destruct (td_at r colIdx) eqn:Etd.
    + pose proof Etd as Etd'. apply td_at_true in Etd' as [text Ecell]. rewrite Ecell.
      assert (Hlt : Forall (fun y => ref_lt y (CellRef t (first + i) colIdx)) sel).
      { eapply Forall_impl; [|exact Hb]. intros y Hy. left. exact Hy. }
      rewrite (add_selected_above _ sel Hlt).
      destruct (IH (S i) (sel ++ [CellRef t (first + i) colIdx])%list Hrest) as (H1 & H2).
      * apply Forall_app. split.
        -- eapply Forall_impl; [|exact Hb]. intros y. cbv beta. lia.
        -- constructor; [cbn [rowIndex]; lia | constructor].
      * now apply sorted_snoc.
      * split; [exact H1|]. intros ref. rewrite H2, in_app_iff. cbn [In]. split.
        -- intros [[H | [<- | []]] | (k & row & E & Hk & Hrow & Htd)].
           ++ now left.
           ++ right. exists i, r. repeat split; try assumption; lia.
           ++ right. exists k, row. repeat split; try assumption; lia.
        -- intros [H | (k & row & E & Hk & Hrow & Htd)]; [now left; left|].
           destruct (Nat.eq_dec k i) as [-> | N].
           ++ left. right. left. now symmetry.
           ++ right. exists k, row. repeat split; try assumption; lia.
    + assert (Esel : match nth_error r colIdx with
                     | Some (DomCell TD _) => add_selected (CellRef t (first + i) colIdx) sel
                     | _ => sel
                     end = sel).
      { unfold td_at in Etd. destruct (nth_error r colIdx) as [[[|] text]|];
          [reflexivity | discriminate | reflexivity]. }
      rewrite Esel.
      destruct (IH (S i) sel Hrest) as (H1 & H2).
      * eapply Forall_impl; [|exact Hb]. intros y. cbv beta. lia.
      * exact Hs.
      * split; [exact H1|]. intros ref. rewrite H2. split.
        -- intros [H | (k & row & E & Hk & Hrow & Htd)]; [now left|].
           right. exists k, row. repeat split; try assumption; lia.
        -- intros [H | (k & row & E & Hk & Hrow & Htd)]; [now left|].
           destruct (Nat.eq_dec k i) as [-> | N]; [congruence|].
           right. exists k, row. repeat split; try assumption; lia.
Qed.

(** The row selection over the cells of a row. *)
Lemma select_row_inv (full : list dom_cell) (r : nat) :
  forall row c sel,
    (forall k, nth_error row k = nth_error full (c + k)) ->
    Forall (fun y => ref_lt y (CellRef t r c)) sel ->
    StronglySorted ref_lt sel ->
    StronglySorted ref_lt (select_row row t r c sel)
    /\ forall ref,
        In ref (select_row row t r c sel)
        <-> In ref sel
            \/ exists j, ref = CellRef t r j /\ (c <= j)%nat /\ td_at full j = true.
Proof.
  induction row as [|[tg text] row IH]; intros c sel Hrow Hb Hs; cbn [select_row].
  - split; [exact Hs|]. intros ref. split; [now left|].
    intros [H | (j & _ & Hj & Htd)]; [exact H|].
    exfalso. apply td_at_true in Htd as [text Ecell].
    specialize (Hrow (j - c)%nat). replace (c + (j - c))%nat with j in Hrow by lia.
    rewrite Ecell in Hrow. now destruct (j - c)%nat.
  - assert (Hc : nth_error full c = Some (DomCell tg text))
      by (specialize (Hrow 0%nat); rewrite Nat.add_0_r in Hrow; now symmetry).
    assert (Hrest : forall k, nth_error row k = nth_error full (S c + k)).
    { intros k. specialize (Hrow (S k)). cbn [nth_error] in Hrow.
      now replace (S c + k)%nat with (c + S k)%nat by lia. }
    assert (Hup : forall l, Forall (fun y => ref_lt y (CellRef t r c)) l ->
                            Forall (fun y => ref_lt y (CellRef t r (S c))) l).
    { intros l. apply Forall_impl. intros y. unfold ref_lt.
      cbn [rowIndex cellIndex]. lia. }
    destruct tg.
    + destruct (IH (S c) sel Hrest (Hup sel Hb) Hs) as (H1 & H2).
      split; [exact H1|]. intros ref. rewrite H2. split.
      * intros [H | (j & E & Hj & Htd)]; [now left|].
        right. exists j. repeat split; try assumption; lia.
      * intros [H | (j & E & Hj & Htd)]; [now left|].
        destruct (Nat.eq_dec j c) as [-> | N].
        -- unfold td_at in Htd. rewrite Hc in Htd. discriminate.
        -- right. exists j. repeat split; try assumption; lia.
    + rewrite (add_selected_above _ sel Hb).
      destruct (IH (S c) (sel ++ [CellRef t r c])%list Hrest) as (H1 & H2).
      * apply Forall_app. split; [now apply Hup|].
        constructor; [|constructor]. unfold ref_lt. cbn [rowIndex cellIndex]. lia.
      * now apply sorted_snoc.
      * split; [exact H1|]. intros ref. rewrite H2, in_app_iff. cbn [In]. split.
        -- intros [[H | [<- | []]] | (j & E & Hj & Htd)].
           ++ now left.
           ++ right. exists c. repeat split; try lia.
              unfold td_at. now rewrite Hc.
           ++ right. exists j. repeat split; try assumption; lia.
        -- intros [H | (j & E & Hj & Htd)]; [now left; left|].
           destruct (Nat.eq_dec j c) as [-> | N].
           ++ left. right. left. now symmetry.
           ++ right. exists j. repeat split; try assumption; lia.
Qed.
End SelectLoops.
